(** * Mileage calculator (app.py): trip ledger, distance resolution and
      cost amendment, as a shallow embedding

    The Flask handlers [mileage] and [costs] of [app.py] are embedded as
    computations in a small state-and-exception monad over a [world] that
    holds the trips file and the flashed messages.  Python floats are
    binary64 values ([spec_float] of the Standard Library, precision 53,
    exponent bound 1024), so that NaN, the infinities and the rounding of
    every operation are those of the interpreter. *)

From Stdlib Require Import ZArith Lia Ascii String.
From Stdlib Require Import Floats.SpecFloat.
From stdpp Require Import base option list strings gmap pretty sorting.

Local Open Scope Z_scope.

(** ** Python floats *)

Module PyFloat.

Abbreviation float := spec_float.

Definition prec : Z := 53.
Definition emax : Z := 1024.

Definition add : float -> float -> float := SFadd prec emax.
Definition mul : float -> float -> float := SFmul prec emax.
Definition div : float -> float -> float := SFdiv prec emax.

(** [x <= y]; false as soon as one side is NaN. *)
Definition leb : float -> float -> bool := SFleb.
(** [x < y]; false as soon as one side is NaN. *)
Definition ltb : float -> float -> bool := SFltb.

Definition nan : float := S754_nan.
Definition zero : float := S754_zero false.

(** The binary64 value nearest to the fraction [n / d] (ties to even):
    what a decimal literal such as [0.70] or [1609.344] denotes, and what
    [float()] returns on such a text. *)
Definition of_ratio (s : bool) (n d : positive) : float :=
  div (S754_finite s n 0) (S754_finite false d 0).

Definition of_Z (z : Z) : float :=
  match z with
  | Z0 => zero
  | Zpos p => of_ratio false p 1
  | Zneg p => of_ratio true p 1
  end.

(** The integer nearest to [n / d], ties to the even one ([0 < d]). *)
Definition div_half_even (n d : Z) : Z :=
  let q := n / d in
  let r := n mod d in
  match 2 * r ?= d with
  | Lt => q
  | Gt => q + 1
  | Eq => if Z.even q then q else q + 1
  end.

(** [round(x, 2)] of the interpreter: NaN, the infinities and the zeros
    round to themselves; a finite [x] is converted to the decimal with two
    fractional digits nearest to its exact value (ties to even), and that
    decimal is read back as the nearest binary64. *)
Definition round2 (x : float) : float :=
  match x with
  | S754_finite s m e =>
      if 0 <=? e then x
      else
        match div_half_even (100 * Zpos m) (2 ^ (- e)) with
        | Zpos n => of_ratio s n 100
        | _ => S754_zero s
        end
  | _ => x
  end.

End PyFloat.

Import PyFloat.

(** ** Text *)

(** A [string] is read as a sequence of code points below 256.  The
    white-space code points of [str.isspace] in that range. *)
Definition is_space (a : ascii) : bool :=
  let n := N_of_ascii a in
  ((9 <=? n) && (n <=? 13) || (28 <=? n) && (n <=? 32) || (n =? 133) || (n =? 160))%N.

Fixpoint lstrip (s : string) : string :=
  match s with
  | String a s' => if is_space a then lstrip s' else s
  | EmptyString => EmptyString
  end.

Fixpoint rstrip (s : string) : string :=
  match s with
  | EmptyString => EmptyString
  | String a s' =>
      match rstrip s' with
      | EmptyString => if is_space a then EmptyString else String a EmptyString
      | t => String a t
      end
  end.

(** [s.strip()] *)
Definition strip (s : string) : string := rstrip (lstrip s).

(** Truth value of a [str]: the empty text is false. *)
Definition truthy (s : string) : bool :=
  match s with EmptyString => false | String _ _ => true end.

(** ** Data model: the records kept in [data/trips.json] *)

Record stop := Stop {
  stop_address : string;
  stop_datetime : string
}.

Record leg := Leg {
  leg_from : string;
  leg_to : string;
  leg_miles : float
}.

Record ticket := Ticket {
  ticket_state : string;
  ticket_county : string;
  ticket_department : string;
  ticket_citing_officer : string;
  ticket_number : string
}.

Record costs_record := Costs {
  gas : float;
  food : float;
  tolls : float;
  tickets : list ticket
}.

Record trip := Trip {
  created_at : string;
  trip_type : string;
  start_address : string;
  end_address : string;
  start_datetime : string;
  arrival_datetime : string;
  stops : list stop;
  irs_business_rate : float;
  one_way_miles : float;
  total_miles : float;
  reimbursement : float;
  distance_source : string;
  distance_legs : list leg;
  trip_costs : costs_record
}.

(** ** The world of a request: the trips file and the flashed messages *)

(** What [TRIPS_FILE.exists()], [read_text(encoding="utf-8")] and
    [json.loads] can tell apart about the file.  A document is the list of
    trips that [json.dumps] wrote and that [json.loads] reads back.  A
    file holding JSON of another shape (not a list of trip objects) is not
    among these states: the handlers never write one. *)
Inductive file_state :=
  | Absent
  | Undecodable (bytes : list Byte.byte)   (* not UTF-8: read_text raises *)
  | Unparseable (text : string)            (* UTF-8, rejected by json.loads *)
  | Document (trips : list trip).

Record world := World {
  trips_file : file_state;
  writes : list (list trip);               (* every call of _write_trips *)
  flashes : list (string * string)         (* (message, category), oldest first *)
}.

Inductive exn :=
  | UnicodeDecodeError
  | RequestException.

Inductive outcome (A : Type) :=
  | Returned (a : A) (w : world)
  | Raised (e : exn) (w : world).
Arguments Returned {A} a w.
Arguments Raised {A} e w.

(** Computations that read and change the world and may raise. *)
Definition M (A : Type) : Type := world -> outcome A.

#[global] Instance M_ret : MRet M := fun A a w => Returned a w.
#[global] Instance M_bind : MBind M := fun A B f m w =>
  match m w with
  | Returned a w' => f a w'
  | Raised e w' => Raised e w'
  end.

Definition raise {A} (e : exn) : M A := fun w => Raised e w.

Definition final_world {A} (o : outcome A) : world :=
  match o with Returned _ w => w | Raised _ w => w end.

(** [_read_trips()]: only [json.JSONDecodeError] is caught. *)
Definition _read_trips : M (list trip) := fun w =>
  match trips_file w with
  | Absent => Returned [] w
  | Undecodable _ => Raised UnicodeDecodeError w
  | Unparseable _ => Returned [] w
  | Document trips => Returned trips w
  end.

(** [_write_trips(trips)] *)
Definition _write_trips (trips : list trip) : M unit := fun w =>
  Returned tt (World (Document trips) (writes w ++ [trips]) (flashes w)).

(** [flash(message, category)] *)
Definition flash (message category : string) : M unit := fun w =>
  Returned tt (World (trips_file w) (writes w) (flashes w ++ [(message, category)])).

(** ** The request and the services outside the program *)

(** [request.method] and [request.form]. *)
Record request := Request {
  method : string;
  form : gmap string string
}.

(** [request.form.get(key, default)] *)
Definition form_get (f : gmap string string) (key default : string) : string :=
  match f !! key with Some v => v | None => default end.

Inductive response :=
  | Redirect (endpoint : string)
  | Render (template : string).

(** Outcome of the geocode request up to [feats]: the request, the status
    check or the decoding raised, or each feature's coordinates. *)
Inductive geocode_reply :=
  | GeocodeRaises
  | GeocodeFeatures (feats : list (list float)).

(** Outcome of the directions request up to [meters]. *)
Inductive route_reply :=
  | RouteRaises
  | RouteMeters (meters : float).

(** What a request finds outside the program.  Each endpoint answers as a
    function of what it is asked: the same address has the same features
    throughout a request. *)
Record environment := Environment {
  (** [os.environ.get("ORS_API_KEY")] *)
  ORS_API_KEY : option string;
  (** [float(s)] on a text; [None] when it raises [ValueError]. *)
  float_of_str : string -> option float;
  (** The two OpenRouteService endpoints. *)
  geocode_search : string -> geocode_reply;
  directions : list float -> list float -> route_reply
}.

Section App.

Variable env : environment.

Definition ors_enabled : bool :=
  match ORS_API_KEY env with Some k => truthy k | None => false end.

(** [safe_float(val)] with [default=0.0]; [val] is [None] when the form
    has no such field, and [float(None)] raises [TypeError]. *)
Definition safe_float (val : option string) : float :=
  match val with
  | None => zero
  | Some s => match float_of_str env s with Some x => x | None => zero end
  end.

Definition geocode_ors (address : string) : M (option (list float)) :=
  if negb ors_enabled then mret None
  else
    match geocode_search env address with
    | GeocodeRaises => raise RequestException
    | GeocodeFeatures [] => mret None
    | GeocodeFeatures (coords :: _) => mret (Some coords)
    end.

(** Truth value of what [geocode_ors] returned: [None] and the empty
    list are false. *)
Definition found (c : option (list float)) : option (list float) :=
  match c with
  | Some (x :: xs) => Some (x :: xs)
  | _ => None
  end.

Definition meters_per_mile : float := of_ratio false 1609344 1000.

Definition driving_distance_miles_ors (start_addr end_addr : string)
  : M (option float) :=
  if negb ors_enabled then mret None
  else
    start ← geocode_ors start_addr;
    end_ ← geocode_ors end_addr;
    match found start, found end_ with
    | Some s, Some e =>
        match directions env s e with
        | RouteRaises => raise RequestException
        | RouteMeters meters => mret (Some (div meters meters_per_mile))
        end
    | _, _ => mret None
    end.

(** *** [mileage]: the stops of the form *)

Definition stop_key (i : nat) (field : string) : string :=
  "stop_" +:+ pretty i +:+ "_" +:+ field.

Definition stop_slot (f : gmap string string) (i : nat) : list stop :=
  let addr := strip (form_get f (stop_key i "address") "") in
  let dt := strip (form_get f (stop_key i "datetime") "") in
  if truthy addr || truthy dt then [Stop addr dt] else [].

(** [for i in range(1, 6)] *)
Definition read_stops (f : gmap string string) : list stop :=
  flat_map (stop_slot f) (seq 1 5).

(** [[start_address] + [s["address"] for s in stops if s.get("address")]
    + [end_address]] *)
Definition waypoints (start_address : string) (stops : list stop)
    (end_address : string) : list string :=
  start_address
    :: map stop_address (filter (fun s => truthy (stop_address s) = true) stops)
    ++ [end_address].

(** [zip(points, points[1:])] *)
Definition consecutive (points : list string) : list (string * string) :=
  zip points (tail points).

(** The loop over the legs, from the state [(ok, total, computed_detail)]
    it has reached; [break] leaves the legs appended so far in place. *)
Fixpoint legs_loop (pairs : list (string * string)) (total : float)
    (computed_detail : list leg) : M (bool * float * list leg) :=
  match pairs with
  | [] => mret (true, total, computed_detail)
  | (a, b) :: rest =>
      d ← driving_distance_miles_ors a b;
      match d with
      | None => mret (false, total, computed_detail)
      | Some d =>
          legs_loop rest (add total d) (computed_detail ++ [Leg a b d])
      end
  end.

(** Lines 152-168: [(computed_one_way, computed_detail)]. *)
Definition route (start_address : string) (stops : list stop)
    (end_address : string) : M (option float * list leg) :=
  if ors_enabled && truthy start_address && truthy end_address then
    let points := waypoints start_address stops end_address in
    if (2 <=? length points)%nat then
      '(ok, total, computed_detail) ← legs_loop (consecutive points) zero [];
      mret (if ok : bool then Some total else None, computed_detail)
    else mret (None, [])
  else mret (None, []).

Definition no_costs : costs_record := Costs zero zero zero [].

Definition msg_addresses_required : string := "Start and End address are required.".
Definition msg_miles_positive : string :=
  "Miles must be greater than 0 (enter manual miles or configure ORS_API_KEY).".

(** Lines 182-209: total miles, reimbursement and the [trip] dict, from
    the final [one_way_miles]. *)
Definition new_trip (trip_type start_address end_address start_dt arrival_dt : string)
    (stops : list stop) (rate : float) (now : string)
    (computed_one_way : option float) (computed_detail : list leg)
    (one_way_miles : float) : trip :=
  let total_miles :=
    if String.eqb trip_type "roundtrip" then mul one_way_miles (of_Z 2)
    else one_way_miles in
  let reimbursement := mul total_miles rate in
  {| created_at := now +:+ "Z";
     trip_type := trip_type;
     start_address := start_address;
     end_address := end_address;
     start_datetime := start_dt;
     arrival_datetime := arrival_dt;
     stops := stops;
     irs_business_rate := rate;
     one_way_miles := round2 one_way_miles;
     total_miles := round2 total_miles;
     reimbursement := round2 reimbursement;
     distance_source :=
       match computed_one_way with
       | Some _ => "openrouteservice"
       | None => "manual"
       end;
     distance_legs := computed_detail;
     trip_costs := no_costs |}.

(** Lines 211-213: load the ledger, add the trip, write the ledger. *)
Definition append_trip (trip : trip) : M unit :=
  trips ← _read_trips;
  _write_trips (trips ++ [trip]).

(** [mileage()]; [rate] is what [fetch_irs_business_rate()] returned for
    this request and [now] is [datetime.utcnow().isoformat()]. *)
Definition mileage (req : request) (rate : float) (now : string) : M response :=
  if String.eqb (method req) "POST" then
    let f := form req in
    let trip_type := form_get f "trip_type" "one_way" in
    let start_address := strip (form_get f "start_address" "") in
    let end_address := strip (form_get f "end_address" "") in
    let start_dt := strip (form_get f "start_datetime" "") in
    let arrival_dt := strip (form_get f "arrival_datetime" "") in
    let stops := read_stops f in
    let manual_one_way_miles := safe_float (f !! "manual_one_way_miles") in
    let manual_stop_miles := safe_float (f !! "manual_stop_miles") in
    '(computed_one_way, computed_detail) ← route start_address stops end_address;
    let one_way_miles :=
      match computed_one_way with Some c => c | None => manual_one_way_miles end in
    let one_way_miles := add one_way_miles manual_stop_miles in
    if negb (truthy start_address) || negb (truthy end_address) then
      flash msg_addresses_required "danger";;
      mret (Redirect "mileage")
    else if leb one_way_miles zero then
      flash msg_miles_positive "danger";;
      mret (Redirect "mileage")
    else
      let trip :=
        new_trip trip_type start_address end_address start_dt arrival_dt stops
                 rate now computed_one_way computed_detail one_way_miles in
      append_trip trip;;
      flash "Trip saved." "success";;
      mret (Redirect "index")
  else mret (Render "mileage.html").

(** *** [costs] *)

(** [trip.get("created_at") == created_at]; the form value is [None] when
    the field is missing, and no stored text equals [None]. *)
Definition same_key (t : trip) (key : option string) : bool :=
  match key with
  | Some k => String.eqb (created_at t) k
  | None => false
  end.

(** The trip with its [costs] sub-record replaced, every other key kept. *)
Definition with_costs (t : trip) (c : costs_record) : trip :=
  {| created_at := created_at t;
     trip_type := trip_type t;
     start_address := start_address t;
     end_address := end_address t;
     start_datetime := start_datetime t;
     arrival_datetime := arrival_datetime t;
     stops := stops t;
     irs_business_rate := irs_business_rate t;
     one_way_miles := one_way_miles t;
     total_miles := total_miles t;
     reimbursement := reimbursement t;
     distance_source := distance_source t;
     distance_legs := distance_legs t;
     trip_costs := c |}.

(** [any([t_state, t_county, t_dept, t_officer, t_number])] *)
Definition any_field (k : ticket) : bool :=
  truthy (ticket_state k) || truthy (ticket_county k)
  || truthy (ticket_department k) || truthy (ticket_citing_officer k)
  || truthy (ticket_number k).

(** The body of the [if] at lines 242-254, on the matched trip: the three
    amounts are assigned and the ticket, if it has a field, is appended. *)
Definition amend_trip (gas food tolls : float) (k : ticket) (t : trip) : trip :=
  let old := tickets (trip_costs t) in
  with_costs t
    (Costs gas food tolls (if any_field k then old ++ [k] else old)).

(** The [for trip in trips] loop with its [break]: the list as the loop
    leaves it, and [updated]. *)
Fixpoint amend_loop (key : option string) (update : trip -> trip)
    (trips : list trip) : list trip * bool :=
  match trips with
  | [] => ([], false)
  | t :: rest =>
      if same_key t key then (update t :: rest, true)
      else
        let '(rest', updated) := amend_loop key update rest in
        (t :: rest', updated)
  end.

(** [costs()] *)
Definition costs (req : request) : M response :=
  trips ← _read_trips;
  if String.eqb (method req) "POST" then
    let f := form req in
    let created_at := f !! "created_at" in
    let gas := safe_float (f !! "gas") in
    let food := safe_float (f !! "food") in
    let tolls := safe_float (f !! "tolls") in
    let t_state := strip (form_get f "ticket_state" "") in
    let t_county := strip (form_get f "ticket_county" "") in
    let t_dept := strip (form_get f "ticket_department" "") in
    let t_officer := strip (form_get f "ticket_officer" "") in
    let t_number := strip (form_get f "ticket_number" "") in
    let '(trips, updated) :=
      amend_loop created_at
        (amend_trip gas food tolls
           (Ticket t_state t_county t_dept t_officer t_number))
        trips in
    (if updated : bool then
       _write_trips trips;;
       flash "Costs updated." "success"
     else
       flash "Trip not found." "danger");;
    mret (Redirect "costs")
  else mret (Render "costs.html").

End App.

(** ** A reader of decimal texts, for the examples

    The theorems below hold for every reading [float_of_str] of a text.
    The examples need one: [float_of_decimal] reads an optional sign, digits
    and an optional fraction, and the words [nan] and [inf]; on these texts
    it returns what [float()] returns, the nearest binary64. *)

Definition digit_value (a : ascii) : option Z :=
  let n := N_of_ascii a in
  if ((48 <=? n) && (n <=? 57))%N then Some (Z.of_N n - 48) else None.

Fixpoint read_decimal (s : string) (seen_point any : bool) (n : Z) (d : positive)
  : option (Z * positive) :=
  match s with
  | EmptyString => if any then Some (n, d) else None
  | String a s' =>
      match digit_value a with
      | Some v =>
          read_decimal s' seen_point true (10 * n + v)
            (if seen_point then (10 * d)%positive else d)
      | None =>
          if Ascii.eqb a "." && negb seen_point
          then read_decimal s' true any n d
          else None
      end
  end.

Definition signed_decimal (sign : bool) (s : string) : option float :=
  if String.eqb s "nan" then Some nan
  else if String.eqb s "inf" then Some (S754_infinity sign)
  else
    match read_decimal s false false 0 1 with
    | Some (Zpos n, d) => Some (of_ratio sign n d)
    | Some (_, _) => Some (S754_zero sign)
    | None => None
    end.

Definition float_of_decimal (s : string) : option float :=
  match s with
  | String "-" s' => signed_decimal true s'
  | String "+" s' => signed_decimal false s'
  | _ => signed_decimal false s
  end.

(** ** Names for the parts of a submission *)

Section Submission.

Variable env : environment.

Definition submitted_start (req : request) : string :=
  strip (form_get (form req) "start_address" "").

Definition submitted_end (req : request) : string :=
  strip (form_get (form req) "end_address" "").

(** The waypoint pairs the loop of [mileage] goes through. *)
Definition submitted_legs (req : request) : list (string * string) :=
  consecutive
    (waypoints (submitted_start req) (read_stops (form req)) (submitted_end req)).

(** [(computed_one_way, computed_detail)] of a submission. *)
Definition resolution (req : request) : M (option float * list leg) :=
  route env (submitted_start req) (read_stops (form req)) (submitted_end req).

(** [one_way_miles] after line 172, before any rounding. *)
Definition final_one_way (req : request) (computed_one_way : option float) : float :=
  add
    match computed_one_way with
    | Some c => c
    | None => safe_float env (form req !! "manual_one_way_miles")
    end
    (safe_float env (form req !! "manual_stop_miles")).

(** The [trip] dict a submission builds. *)
Definition submitted_trip (req : request) (rate : float) (now : string)
    (computed_one_way : option float) (computed_detail : list leg) : trip :=
  new_trip (form_get (form req) "trip_type" "one_way")
    (submitted_start req) (submitted_end req)
    (strip (form_get (form req) "start_datetime" ""))
    (strip (form_get (form req) "arrival_datetime" ""))
    (read_stops (form req)) rate now computed_one_way computed_detail
    (final_one_way req computed_one_way).

(** The ticket fields of an amendment, stripped. *)
Definition submitted_ticket (req : request) : ticket :=
  Ticket (strip (form_get (form req) "ticket_state" ""))
         (strip (form_get (form req) "ticket_county" ""))
         (strip (form_get (form req) "ticket_department" ""))
         (strip (form_get (form req) "ticket_officer" ""))
         (strip (form_get (form req) "ticket_number" "")).

(** The citation records an amendment appends: one or none. *)
Definition citation (req : request) : list ticket :=
  if any_field (submitted_ticket req) then [submitted_ticket req] else [].

(** The [costs] sub-record an amendment leaves on a trip whose tickets
    were [old]. *)
Definition amended_costs (req : request) (old : list ticket) : costs_record :=
  Costs (safe_float env (form req !! "gas"))
        (safe_float env (form req !! "food"))
        (safe_float env (form req !! "tolls"))
        (old ++ citation req).

(** The world after [_write_trips(trips)] and one [flash]. *)
Definition saved (w : world) (trips : list trip) (message category : string) : world :=
  World (Document trips) (writes w ++ [trips]) (flashes w ++ [(message, category)]).

(** The world after one [flash] and no write. *)
Definition flashed (w : world) (message category : string) : world :=
  World (trips_file w) (writes w) (flashes w ++ [(message, category)]).

(** The routing service returns a distance for the leg from [a] to [b]. *)
Definition leg_computed (w : world) (p : string * string) : Prop :=
  exists d, driving_distance_miles_ors env p.1 p.2 w = Returned (Some d) w.

End Submission.

(** The calls to the routing service leave the world as it is. *)
Definition stateless {A} (m : M A) : Prop :=
  forall w, final_world (m w) = w.

(** The service is configured and computed every leg of the submission. *)
Definition every_leg_computed (env : environment) (req : request) (w : world) : Prop :=
  ors_enabled env = true /\ Forall (leg_computed env w) (submitted_legs req).

(** ** Concrete submissions *)

Definition form_of (fields : list (string * string)) : gmap string string :=
  list_to_map fields.

(** A routing service that knows the addresses [A] and [B] and no other. *)
Definition demo_geocode (address : string) : geocode_reply :=
  if String.eqb address "A" then GeocodeFeatures [[of_Z 1; of_Z 1]]
  else if String.eqb address "B" then GeocodeFeatures [[of_Z 2; of_Z 2]]
  else GeocodeFeatures [].

Definition demo_directions (s e : list float) : route_reply :=
  RouteMeters (of_Z 16093).

Definition demo_env : environment :=
  Environment (Some "key") float_of_decimal demo_geocode demo_directions.

(** No [ORS_API_KEY]. *)
Definition manual_env : environment :=
  Environment None float_of_decimal demo_geocode demo_directions.

(** A routing service whose requests fail. *)
Definition failing_env : environment :=
  Environment (Some "key") float_of_decimal (fun _ => GeocodeRaises) demo_directions.

Definition empty_world : world := World Absent [] [].
Definition rate_070 : float := of_ratio false 70 100.
Definition demo_now : string := "2025-01-01T00:00:00".

Definition req_A_B_C : request :=
  Request "POST"
    (form_of [("start_address", "A"); ("stop_1_address", "B"); ("end_address", "C");
              ("manual_one_way_miles", "10")]).

Definition req_A_B (trip_type : string) : request :=
  Request "POST"
    (form_of [("trip_type", trip_type); ("start_address", "A"); ("end_address", "B");
              ("manual_one_way_miles", "10")]).

Definition req_manual (miles extra : string) : request :=
  Request "POST"
    (form_of [("trip_type", "one_way"); ("start_address", "A"); ("end_address", "B");
              ("manual_one_way_miles", miles); ("manual_stop_miles", extra)]).

Definition demo_trip : trip :=
  submitted_trip manual_env (req_A_B "one_way") rate_070 demo_now None [].

Definition demo_ledger : world := World (Document [demo_trip]) [[demo_trip]] [].

Definition req_costs (key gas number : string) : request :=
  Request "POST"
    (form_of [("created_at", key); ("gas", gas); ("food", "12.5"); ("tolls", "3");
              ("ticket_number", number)]).

(** An amendment of the amounts only, without any ticket field. *)
Definition req_amounts (key gas : string) : request :=
  Request "POST" (form_of [("created_at", key); ("gas", gas)]).

(** A submission with both addresses and no miles at all. *)
Definition req_no_miles : request :=
  Request "POST" (form_of [("start_address", "A"); ("end_address", "B")]).

(** A submission whose start address is white space only. *)
Definition req_blank_start : request :=
  Request "POST"
    (form_of [("start_address", "   "); ("end_address", "B");
              ("manual_one_way_miles", "10")]).

(** A second trip, saved later, and a ledger of the two. *)
Definition demo_trip_2 : trip :=
  submitted_trip manual_env (req_A_B "roundtrip") rate_070 "2025-02-02T00:00:00" None [].

Definition demo_ledger_2 : world := World (Document [demo_trip; demo_trip_2]) [] [].

(** The form fields [mileage] reads for the stops. *)
Definition stop_keys : list string :=
  flat_map (fun i => [stop_key i "address"; stop_key i "datetime"]) (seq 1 5).

(** The decimal form of a number holds digits only. *)
Fixpoint digits_only (s : string) : bool :=
  match s with
  | EmptyString => true
  | String a s' =>
      match digit_value a with Some _ => digits_only s' | None => false end
  end.

(** ** The pages that list the ledger *)

(** One step of the stable sort by [created_at], greatest first: the trip
    goes in front of the first trip whose key is not greater than its
    own. *)
Fixpoint insert_newest (t : trip) (sorted : list trip) : list trip :=
  match sorted with
  | [] => [t]
  | u :: rest =>
      if String.ltb (created_at t) (created_at u) then u :: insert_newest t rest
      else t :: u :: rest
  end.

(** [sorted(trips, key=lambda t: t.get("created_at", ""), reverse=True)]:
    texts compare by code point, the sort is stable, and with
    [reverse=True] trips with the same key still keep the order they had. *)
Definition sorted_newest_first (trips : list trip) : list trip :=
  foldr insert_newest [] trips.

(** [render_template(name, trips=...)] *)
Record page := Page {
  page_template : string;
  page_trips : list trip
}.

(** [index()] *)
Definition index : M page :=
  trips ← _read_trips;
  mret (Page "index.html" (sorted_newest_first trips)).

(** [api_trips()]: the value under the key [trips] of the returned dict. *)
Definition api_trips : M (list trip) := _read_trips.

(** ** Shapes of texts and trips used by the statements *)

(** Every code point of the text is white space (the empty text too). *)
Fixpoint blank (s : string) : bool :=
  match s with
  | EmptyString => true
  | String a s' => is_space a && blank s'
  end.

(** A stop as [mileage] keeps it: address or datetime is not empty. *)
Definition stop_filled (s : stop) : bool :=
  truthy (stop_address s) || truthy (stop_datetime s).

(** The two ends of a recorded leg. *)
Definition leg_ends (l : leg) : string * string := (leg_from l, leg_to l).

(** The left-to-right sum [total += d] of the miles of the legs, from
    [0.0]. *)
Definition legs_total (legs : list leg) : float :=
  fold_left add (map leg_miles legs) zero.

(** What every trip written by [mileage] satisfies, in the fields that
    [costs] leaves alone. *)
Definition trip_ok (t : trip) : Prop :=
  truthy (start_address t) = true
  /\ truthy (end_address t) = true
  /\ (length (stops t) <= 5)%nat
  /\ Forall (fun s => stop_filled s = true) (stops t)
  /\ (distance_source t = "openrouteservice" \/ distance_source t = "manual")
  /\ map leg_ends (distance_legs t)
       `prefix_of` consecutive (waypoints (start_address t) (stops t) (end_address t))
  /\ (distance_source t = "openrouteservice" ->
      map leg_ends (distance_legs t)
      = consecutive (waypoints (start_address t) (stops t) (end_address t))).

(** The trips file, when it holds a ledger, holds such trips only. *)
Definition ledger_ok (w : world) : Prop :=
  match trips_file w with
  | Document trips => Forall trip_ok trips
  | _ => True
  end.

(** The position of the first trip with the key, if any: the trip the loop
    of [costs] stops at. *)
Fixpoint first_match (key : option string) (trips : list trip) : option nat :=
  match trips with
  | [] => None
  | t :: rest =>
      if same_key t key then Some 0%nat
      else option_map S (first_match key rest)
  end.

(** The service returned these miles for this leg. *)
Definition leg_as_computed (env : environment) (w : world) (l : leg) : Prop :=
  driving_distance_miles_ors env (leg_from l) (leg_to l) w
  = Returned (Some (leg_miles l)) w.

(** No older than: the order of the listing. *)
Definition not_older (a b : trip) : Prop :=
  String.leb (created_at b) (created_at a) = true.

(** The only exception the calls to the routing service raise. *)
Definition raises_requests_only {A} (m : M A) : Prop :=
  forall w e w', m w = Raised e w' -> e = RequestException.

(** Some ticket field of the form holds more than white space. *)
Definition ticket_given (req : request) : bool :=
  negb (blank (form_get (form req) "ticket_state" ""))
  || negb (blank (form_get (form req) "ticket_county" ""))
  || negb (blank (form_get (form req) "ticket_department" ""))
  || negb (blank (form_get (form req) "ticket_officer" ""))
  || negb (blank (form_get (form req) "ticket_number" "")).

(** The amount a form gives under a field: the number its text reads as,
    and 0.0 when the field is missing or its text is not a number. *)
Definition entered_amount (env : environment) (req : request) (field : string) : float :=
  match form req !! field with
  | Some text =>
      match float_of_str env text with
      | Some x => x
      | None => zero
      end
  | None => zero
  end.

(** Two trips the routing service took part in: one resolved from [A] to
    [B], and one from [A] by [B] to [C] stored as manual with the leg that
    was computed before the service had no answer. *)
Definition demo_leg_miles : float := div (of_Z 16093) meters_per_mile.

Definition demo_resolved_trip : trip :=
  submitted_trip demo_env (req_A_B "one_way") rate_070 demo_now
    (Some (add zero demo_leg_miles)) [Leg "A" "B" demo_leg_miles].

Definition demo_partial_trip : trip :=
  submitted_trip demo_env req_A_B_C rate_070 "2025-03-03T00:00:00"
    None [Leg "A" "B" demo_leg_miles].

Definition demo_ledger_3 : world :=
  World (Document [demo_resolved_trip; demo_partial_trip]) [] [].

(** A ledger in which the first and the last trip have the same
    [created_at] and differ in their costs, with a later trip between
    them. *)
Definition demo_trip_dup : trip :=
  with_costs demo_trip (Costs (of_Z 1) (of_Z 2) (of_Z 3) []).

Definition demo_ledger_4 : world :=
  World (Document [demo_trip; demo_trip_2; demo_trip_dup]) [] [].

(** ** The arithmetic and the text functions on examples *)

Example round2_of_half_cent :
  round2 (of_ratio false 125 1000) = of_ratio false 12 100.
Proof. vm_compute. reflexivity. Qed.

Example round2_2675 :
  round2 (of_ratio false 2675 1000) = of_ratio false 267 100.
Proof. vm_compute. reflexivity. Qed.

Example mul_115_07 :
  round2 (mul (of_ratio false 115 10) (of_ratio false 70 100)) = of_ratio false 805 100.
Proof. vm_compute. reflexivity. Qed.

Example strip_spaces : strip "  12 Main St  " = "12 Main St".
Proof. reflexivity. Qed.

Example strip_blank : strip "   " = "".
Proof. reflexivity. Qed.

Example float_of_decimal_10 : float_of_decimal "10" = Some (of_Z 10).
Proof. vm_compute. reflexivity. Qed.

Example float_of_decimal_1_5 : float_of_decimal "1.5" = Some (of_ratio false 3 2).
Proof. vm_compute. reflexivity. Qed.

Example float_of_decimal_nan : float_of_decimal "nan" = Some nan.
Proof. reflexivity. Qed.

Example float_of_decimal_text : float_of_decimal "ten" = None.
Proof. reflexivity. Qed.

(** ** Facts about the embedding *)

Section Facts.

Variable env : environment.

Lemma stateless_ret {A} (a : A) : stateless (mret a).
Proof. intros w. reflexivity. Qed.

Lemma stateless_raise {A} (e : exn) : stateless (@raise A e).
Proof. intros w. reflexivity. Qed.

Lemma stateless_bind {A B} (m : M A) (k : A -> M B) :
  stateless m -> (forall a, stateless (k a)) -> stateless (m ≫= k).
Proof.
  intros Hm Hk w. unfold mbind, M_bind.
  specialize (Hm w). destruct (m w) as [a w1|e w1]; simpl in Hm; subst.
  - apply Hk.
  - reflexivity.
Qed.

Lemma geocode_ors_stateless a : stateless (geocode_ors env a).
Proof.
  unfold geocode_ors.
  destruct (negb _); [apply stateless_ret|].
  destruct (geocode_search env a) as [|[|c cs]];
    auto using stateless_ret, stateless_raise.
Qed.

Lemma driving_distance_stateless a b :
  stateless (driving_distance_miles_ors env a b).
Proof.
  unfold driving_distance_miles_ors.
  destruct (negb _); [apply stateless_ret|].
  apply stateless_bind; [apply geocode_ors_stateless|]. intros s.
  apply stateless_bind; [apply geocode_ors_stateless|]. intros e.
  destruct (found s), (found e); try apply stateless_ret.
  destruct (directions env _ _); auto using stateless_ret, stateless_raise.
Qed.

Lemma legs_loop_stateless pairs total detail :
  stateless (legs_loop env pairs total detail).
Proof.
  revert total detail.
  induction pairs as [|[a b] rest IH]; intros total detail; simpl.
  - apply stateless_ret.
  - apply stateless_bind; [apply driving_distance_stateless|].
    intros [d|]; [apply IH | apply stateless_ret].
Qed.

Lemma route_stateless s st e : stateless (route env s st e).
Proof.
  unfold route.
  destruct (_ && _ && _); [|apply stateless_ret].
  destruct (2 <=? _)%nat; [|apply stateless_ret].
  apply stateless_bind; [apply legs_loop_stateless|].
  intros [[ok total] detail]. apply stateless_ret.
Qed.

Lemma stateless_returned {A} (m : M A) a w w' :
  stateless m -> m w = Returned a w' -> w' = w.
Proof. intros Hm H. specialize (Hm w). rewrite H in Hm. exact Hm. Qed.

Lemma stateless_raised {A} (m : M A) e w w' :
  stateless m -> m w = Raised e w' -> w' = w.
Proof. intros Hm H. specialize (Hm w). rewrite H in Hm. exact Hm. Qed.

End Facts.

Section MileageFacts.

Variable env : environment.

(** What [mileage] does with a POST once the routing phase has returned. *)
Lemma mileage_post req rate now w c d :
  method req = "POST" ->
  resolution env req w = Returned (c, d) w ->
  mileage env req rate now w =
    if negb (truthy (submitted_start req)) || negb (truthy (submitted_end req))
    then Returned (Redirect "mileage") (flashed w msg_addresses_required "danger")
    else if leb (final_one_way env req c) zero
    then Returned (Redirect "mileage") (flashed w msg_miles_positive "danger")
    else
      match _read_trips w with
      | Returned trips _ =>
          Returned (Redirect "index")
            (saved w (trips ++ [submitted_trip env req rate now c d])
                   "Trip saved." "success")
      | Raised e w1 => Raised e w1
      end.
Proof.
  intros Hm Hr. unfold mileage. rewrite Hm, String.eqb_refl. cbv beta iota zeta.
  unfold resolution, submitted_start, submitted_end in Hr.
  unfold mbind at 1, M_bind at 1. rewrite Hr.
  fold (submitted_start req) (submitted_end req).
  fold (final_one_way env req c).
  destruct (negb (truthy (submitted_start req)) || negb (truthy (submitted_end req))).
  { reflexivity. }
  destruct (leb (final_one_way env req c) zero).
  { reflexivity. }
  unfold append_trip, mbind, M_bind, _read_trips.
  destruct (trips_file w); reflexivity.
Qed.

(** A POST whose routing phase raises writes nothing. *)
Lemma mileage_post_raises req rate now w e :
  method req = "POST" ->
  resolution env req w = Raised e w ->
  mileage env req rate now w = Raised e w.
Proof.
  intros Hm Hr. unfold mileage. rewrite Hm, String.eqb_refl. cbv beta iota zeta.
  unfold resolution, submitted_start, submitted_end in Hr.
  unfold mbind at 1, M_bind at 1. rewrite Hr. reflexivity.
Qed.

Lemma resolution_stateless req : stateless (resolution env req).
Proof. apply route_stateless. Qed.

(** Without a key the routing phase computes nothing and records no leg. *)
Lemma unconfigured_is_manual req w :
  ors_enabled env = false -> resolution env req w = Returned (None, []) w.
Proof. intros H. unfold resolution, route. rewrite H. reflexivity. Qed.

(** Every saved trip comes from a POST that passed both checks. *)
Lemma mileage_saved_inv req rate now w w' :
  mileage env req rate now w = Returned (Redirect "index") w' ->
  exists c d trips,
    method req = "POST"
    /\ resolution env req w = Returned (c, d) w
    /\ truthy (submitted_start req) = true
    /\ truthy (submitted_end req) = true
    /\ leb (final_one_way env req c) zero = false
    /\ _read_trips w = Returned trips w
    /\ w' = saved w (trips ++ [submitted_trip env req rate now c d])
                  "Trip saved." "success".
Proof.
  intros H.
  destruct (String.eqb (method req) "POST") eqn:Hm.
  2:{ unfold mileage in H. rewrite Hm in H. discriminate. }
  apply String.eqb_eq in Hm.
  destruct (resolution env req w) as [[c d] w1|e w1] eqn:Hr.
  2:{ pose proof (stateless_raised _ _ _ _ (resolution_stateless req) Hr); subst w1.
      rewrite (mileage_post_raises _ _ _ _ _ Hm Hr) in H. discriminate. }
  pose proof (stateless_returned _ _ _ _ (resolution_stateless req) Hr); subst w1.
  rewrite (mileage_post _ _ _ _ _ _ Hm Hr) in H.
  destruct (truthy (submitted_start req)); [|discriminate].
  destruct (truthy (submitted_end req)); [|discriminate].
  simpl in H.
  destruct (leb (final_one_way env req c) zero) eqn:Hle; [discriminate|].
  exists c, d.
  destruct (_read_trips w) as [trips w1|e w1] eqn:Hread; [|discriminate].
  assert (w1 = w) as ->.
  { unfold _read_trips in Hread.
    destruct (trips_file w); inversion Hread; reflexivity. }
  exists trips. inversion H. repeat (split; [first [assumption|reflexivity]|]). reflexivity.
Qed.

End MileageFacts.

(** ** The routing loop *)

Section RouteFacts.

Variable env : environment.

(** The loop ends with [ok] exactly when every leg was computed. *)
Lemma legs_loop_ok pairs total detail w ok total' detail' w' :
  legs_loop env pairs total detail w = Returned (ok, total', detail') w' ->
  ok = true <-> Forall (leg_computed env w) pairs.
Proof.
  revert total detail.
  induction pairs as [|[a b] rest IH]; intros total detail H; simpl in H.
  - inversion H; subst. split; [constructor | reflexivity].
  - unfold mbind, M_bind in H.
    destruct (driving_distance_miles_ors env a b w) as [[d|] w1|e w1] eqn:Hd;
      try discriminate.
    + pose proof (stateless_returned _ _ _ _ (driving_distance_stateless env a b) Hd).
      subst w1. apply IH in H. rewrite H. split.
      * intros HF. constructor; [exists d; exact Hd | exact HF].
      * intros HF. inversion HF; assumption.
    + inversion H; subst. split; [discriminate|].
      intros HF. inversion HF as [|? ? [d' Hd'] _]; subst.
      simpl in Hd'. rewrite Hd in Hd'. discriminate.
Qed.

(** The legs recorded by the loop are kept when it breaks: the detail
    list only grows. *)
Lemma legs_loop_detail pairs total detail w ok total' detail' w' :
  legs_loop env pairs total detail w = Returned (ok, total', detail') w' ->
  exists more, detail' = detail ++ more.
Proof.
  revert total detail.
  induction pairs as [|[a b] rest IH]; intros total detail H; simpl in H.
  - inversion H; subst. exists []. symmetry. apply app_nil_r.
  - unfold mbind, M_bind in H.
    destruct (driving_distance_miles_ors env a b w) as [[d|] w1|e w1] eqn:Hd;
      try discriminate.
    + pose proof (stateless_returned _ _ _ _ (driving_distance_stateless env a b) Hd).
      subst w1. apply IH in H as [more ->]. exists (Leg a b d :: more).
      rewrite <- app_assoc. reflexivity.
    + inversion H; subst. exists []. symmetry. apply app_nil_r.
Qed.

(** [computed_one_way] is set exactly when the service is configured,
    both addresses are given and every leg was computed. *)
Lemma resolution_some req w c d :
  resolution env req w = Returned (c, d) w ->
  is_Some c <->
    ors_enabled env = true
    /\ truthy (submitted_start req) = true
    /\ truthy (submitted_end req) = true
    /\ Forall (leg_computed env w) (submitted_legs req).
Proof.
  unfold resolution, route, submitted_legs.
  set (points := waypoints _ _ _).
  assert (Hlen : (2 <=? length points)%nat = true).
  { apply Nat.leb_le. unfold points, waypoints.
    rewrite length_cons, length_app. simpl. lia. }
  rewrite Hlen.
  destruct (ors_enabled env); simpl.
  2:{ intros H; inversion H; subst. split; [intros [? ?]; discriminate|].
      intros [? _]; discriminate. }
  destruct (truthy (submitted_start req)); simpl.
  2:{ intros H; inversion H; subst. split; [intros [? ?]; discriminate|].
      intros (_ & ? & _); discriminate. }
  destruct (truthy (submitted_end req)); simpl.
  2:{ intros H; inversion H; subst. split; [intros [? ?]; discriminate|].
      intros (_ & _ & ? & _); discriminate. }
  unfold mbind, M_bind.
  destruct (legs_loop env (consecutive points) zero [] w)
    as [[[ok total] detail] w1|e w1] eqn:Hloop; [|discriminate].
  intros H. inversion H; subst.
  apply legs_loop_ok in Hloop. rewrite <- Hloop.
  destruct ok; split.
  - auto.
  - intros _. eexists; reflexivity.
  - intros [? ?]; discriminate.
  - intros (_ & _ & _ & ?); discriminate.
Qed.

End RouteFacts.

(** ** C1: a leg that fails after others succeeded *)

(** C1 (the code departs from the claim).  Start [A], one stop [B], end [C],
    the service configured, the leg from [A] to [B] computed and the leg
    from [B] to [C] without result: the trip is saved with
    [distance_source = "manual"] and the manual miles, and its
    [distance_legs] still holds the record of the leg from [A] to [B]. *)
Theorem partial_legs_are_persisted :
  exists t d,
    driving_distance_miles_ors demo_env "A" "B" empty_world
      = Returned (Some d) empty_world
    /\ driving_distance_miles_ors demo_env "B" "C" empty_world
      = Returned None empty_world
    /\ mileage demo_env req_A_B_C rate_070 demo_now empty_world
      = Returned (Redirect "index") (saved empty_world [t] "Trip saved." "success")
    /\ distance_source t = "manual"
    /\ one_way_miles t = of_Z 10
    /\ distance_legs t = [Leg "A" "B" d]
    /\ distance_legs t <> [].
Proof.
  eexists _, _. split; [vm_compute; reflexivity|].
  split; [vm_compute; reflexivity|].
  split; [vm_compute; reflexivity|].
  simpl. repeat split; try (vm_compute; reflexivity). discriminate.
Qed.

(** When a request to the routing service raises, the exception leaves
    [mileage]: nothing is saved and nothing is flashed. *)
Lemma request_error_escapes_mileage :
  mileage failing_env req_A_B_C rate_070 demo_now empty_world
  = Raised RequestException empty_world.
Proof. vm_compute. reflexivity. Qed.

(** ** C2: total miles and reimbursement *)

(** C2, as stated, at a concrete input: with [trip_type] the text
    [round_trip], the stored total is the one-way distance, not twice it. *)
Lemma round_trip_label_not_doubled :
  exists t,
    mileage manual_env (req_A_B "round_trip") rate_070 demo_now empty_world
      = Returned (Redirect "index") (saved empty_world [t] "Trip saved." "success")
    /\ trip_type t = "round_trip"
    /\ final_one_way manual_env (req_A_B "round_trip") None = of_Z 10
    /\ total_miles t = of_Z 10
    /\ total_miles t
       <> round2 (mul (final_one_way manual_env (req_A_B "round_trip") None) (of_Z 2)).
Proof.
  eexists. split; [vm_compute; reflexivity|].
  simpl. repeat split; try (vm_compute; reflexivity).
  vm_compute. discriminate.
Qed.

(** C2 (amended).  For every accepted submission, with [ow] the one-way
    distance before rounding: when [trip_type] is the text [roundtrip] the
    stored total is [ow * 2] rounded once and the stored reimbursement is
    [ow * 2 * rate] rounded once; for every other [trip_type] the stored
    total is [ow] rounded once and the reimbursement [ow * rate] rounded
    once. *)
Theorem total_and_reimbursement_rounded_once env req rate now w w' :
  mileage env req rate now w = Returned (Redirect "index") w' ->
  exists c d trips t,
    resolution env req w = Returned (c, d) w
    /\ trips_file w' = Document (trips ++ [t])
    /\ trip_type t = form_get (form req) "trip_type" "one_way"
    /\ irs_business_rate t = rate
    /\ one_way_miles t = round2 (final_one_way env req c)
    /\ (trip_type t = "roundtrip" ->
        total_miles t = round2 (mul (final_one_way env req c) (of_Z 2))
        /\ reimbursement t
           = round2 (mul (mul (final_one_way env req c) (of_Z 2)) rate))
    /\ (trip_type t <> "roundtrip" ->
        total_miles t = round2 (final_one_way env req c)
        /\ reimbursement t = round2 (mul (final_one_way env req c) rate)).
Proof.
  intros H.
  apply mileage_saved_inv in H as (c & d & trips & _ & Hr & _ & _ & _ & _ & ->).
  exists c, d, trips, (submitted_trip env req rate now c d).
  repeat (split; [first [exact Hr | reflexivity]|]).
  unfold submitted_trip, new_trip; simpl. split.
  - intros ->. rewrite String.eqb_refl. split; reflexivity.
  - intros Hne. apply String.eqb_neq in Hne. rewrite Hne. split; reflexivity.
Qed.

Lemma total_and_reimbursement_rounded_once_witness :
  let req := req_A_B "roundtrip" in
  let w' := saved empty_world [submitted_trip manual_env req rate_070 demo_now None []]
              "Trip saved." "success" in
  mileage manual_env req rate_070 demo_now empty_world = Returned (Redirect "index") w'
  /\ exists c d trips t,
    resolution manual_env req empty_world = Returned (c, d) empty_world
    /\ trips_file w' = Document (trips ++ [t])
    /\ trip_type t = form_get (form req) "trip_type" "one_way"
    /\ irs_business_rate t = rate_070
    /\ one_way_miles t = round2 (final_one_way manual_env req c)
    /\ (trip_type t = "roundtrip" ->
        total_miles t = round2 (mul (final_one_way manual_env req c) (of_Z 2))
        /\ reimbursement t
           = round2 (mul (mul (final_one_way manual_env req c) (of_Z 2)) rate_070))
    /\ (trip_type t <> "roundtrip" ->
        total_miles t = round2 (final_one_way manual_env req c)
        /\ reimbursement t = round2 (mul (final_one_way manual_env req c) rate_070)).
Proof.
  intros req w'.
  assert (H : mileage manual_env req rate_070 demo_now empty_world
              = Returned (Redirect "index") w') by (vm_compute; reflexivity).
  split; [exact H|].
  exact (total_and_reimbursement_rounded_once manual_env req rate_070 demo_now
           empty_world w' H).
Defined.

(** The stored fields themselves need not be in that ratio: with a one-way
    distance of 1.005 the stored one-way is 1.0 and the stored total 2.01. *)
Example stored_total_is_not_twice_stored_one_way :
  exists t,
    mileage manual_env
      (Request "POST"
         (form_of [("trip_type", "roundtrip"); ("start_address", "A");
                   ("end_address", "B"); ("manual_one_way_miles", "1.005")]))
      rate_070 demo_now empty_world
      = Returned (Redirect "index") (saved empty_world [t] "Trip saved." "success")
    /\ one_way_miles t = of_Z 1
    /\ total_miles t = of_ratio false 201 100.
Proof.
  eexists. split; [vm_compute; reflexivity|].
  split; vm_compute; reflexivity.
Qed.

(** ** C3: the provenance flag *)

(** C3, as stated, at a concrete input: the service computed the only leg,
    and the stored flag is not the text [resolved]. *)
Lemma resolved_label_not_stored :
  exists t,
    mileage demo_env (req_A_B "one_way") rate_070 demo_now empty_world
      = Returned (Redirect "index") (saved empty_world [t] "Trip saved." "success")
    /\ every_leg_computed demo_env (req_A_B "one_way") empty_world
    /\ distance_source t <> "resolved"
    /\ distance_source t <> "manual".
Proof.
  eexists. split; [vm_compute; reflexivity|].
  split.
  - split; [reflexivity|].
    repeat constructor. eexists. vm_compute. reflexivity.
  - simpl. split; discriminate.
Qed.

(** C3 (amended).  The trip an accepted submission stores has
    [distance_source] either [openrouteservice] or [manual]: it is
    [openrouteservice] exactly when the service is configured and returned
    a distance for every leg, and [manual] otherwise. *)
Theorem distance_source_provenance env req rate now w w' :
  mileage env req rate now w = Returned (Redirect "index") w' ->
  exists trips t,
    trips_file w' = Document (trips ++ [t])
    /\ (distance_source t = "openrouteservice" \/ distance_source t = "manual")
    /\ (distance_source t = "openrouteservice" <-> every_leg_computed env req w)
    /\ (distance_source t = "manual" <-> ~ every_leg_computed env req w).
Proof.
  intros H.
  apply mileage_saved_inv in H as (c & d & trips & _ & Hr & Hs & He & _ & _ & ->).
  exists trips, (submitted_trip env req rate now c d).
  split; [reflexivity|].
  pose proof (resolution_some env req w c d Hr) as Hc.
  assert (Hiff : is_Some c <-> every_leg_computed env req w).
  { rewrite Hc. unfold every_leg_computed. tauto. }
  unfold submitted_trip, new_trip; simpl.
  destruct c as [x|].
  - assert (every_leg_computed env req w) by (apply Hiff; eexists; reflexivity).
    split; [left; reflexivity|]. split; [tauto|].
    split; [discriminate | tauto].
  - assert (~ every_leg_computed env req w).
    { intros Hall. apply Hiff in Hall as [? ?]. discriminate. }
    split; [right; reflexivity|]. split; [|tauto].
    split; [discriminate | tauto].
Qed.

Lemma distance_source_provenance_witness :
  let req := req_A_B "one_way" in
  let leg_miles := div (of_Z 16093) meters_per_mile in
  let w' := saved empty_world
              [submitted_trip demo_env req rate_070 demo_now
                 (Some (add zero leg_miles)) [Leg "A" "B" leg_miles]]
              "Trip saved." "success" in
  mileage demo_env req rate_070 demo_now empty_world = Returned (Redirect "index") w'
  /\ exists trips t,
    trips_file w' = Document (trips ++ [t])
    /\ (distance_source t = "openrouteservice" \/ distance_source t = "manual")
    /\ (distance_source t = "openrouteservice"
        <-> every_leg_computed demo_env req empty_world)
    /\ (distance_source t = "manual" <-> ~ every_leg_computed demo_env req empty_world).
Proof.
  intros req leg_miles w'.
  assert (H : mileage demo_env req rate_070 demo_now empty_world
              = Returned (Redirect "index") w') by (vm_compute; reflexivity).
  split; [exact H|].
  exact (distance_source_provenance demo_env req rate_070 demo_now empty_world w' H).
Defined.

(** ** C7: the worked example *)

(** C7.  A one-way submission whose one-way distance before the adjustment
    is 10 (the manual miles when no path was resolved), with 1.5 extra miles
    and the rate 0.70, is stored with [one_way_miles = 11.5],
    [total_miles = 11.5] and [reimbursement = 8.05]; the adjustment is added
    whichever path produced the distance. *)
Theorem worked_example env req now w trips c d :
  method req = "POST" ->
  form_get (form req) "trip_type" "one_way" = "one_way" ->
  truthy (submitted_start req) = true ->
  truthy (submitted_end req) = true ->
  resolution env req w = Returned (c, d) w ->
  match c with
  | Some x => x
  | None => safe_float env (form req !! "manual_one_way_miles")
  end = of_Z 10 ->
  safe_float env (form req !! "manual_stop_miles") = of_ratio false 15 10 ->
  _read_trips w = Returned trips w ->
  exists t,
    mileage env req (of_ratio false 70 100) now w
      = Returned (Redirect "index") (saved w (trips ++ [t]) "Trip saved." "success")
    /\ one_way_miles t = of_ratio false 115 10
    /\ total_miles t = of_ratio false 115 10
    /\ reimbursement t = of_ratio false 805 100.
Proof.
  intros Hm Hty Hs He Hr Hbase Hextra Hread.
  assert (How : final_one_way env req c = of_ratio false 115 10).
  { unfold final_one_way. rewrite Hbase, Hextra. vm_compute. reflexivity. }
  exists (submitted_trip env req (of_ratio false 70 100) now c d). split.
  - rewrite (mileage_post env req _ now w c d Hm Hr), Hs, He, How, Hread.
    reflexivity.
  - unfold submitted_trip, new_trip. rewrite Hty, How. simpl.
    repeat split; vm_compute; reflexivity.
Qed.

Lemma worked_example_witness :
  let req := req_manual "10" "1.5" in
  (method req = "POST"
   /\ form_get (form req) "trip_type" "one_way" = "one_way"
   /\ truthy (submitted_start req) = true
   /\ truthy (submitted_end req) = true
   /\ resolution manual_env req empty_world = Returned (None, []) empty_world
   /\ safe_float manual_env (form req !! "manual_one_way_miles") = of_Z 10
   /\ safe_float manual_env (form req !! "manual_stop_miles") = of_ratio false 15 10
   /\ _read_trips empty_world = Returned [] empty_world)
  /\ exists t,
    mileage manual_env req (of_ratio false 70 100) demo_now empty_world
      = Returned (Redirect "index") (saved empty_world ([] ++ [t]) "Trip saved." "success")
    /\ one_way_miles t = of_ratio false 115 10
    /\ total_miles t = of_ratio false 115 10
    /\ reimbursement t = of_ratio false 805 100.
Proof.
  intros req.
  assert (H : method req = "POST"
   /\ form_get (form req) "trip_type" "one_way" = "one_way"
   /\ truthy (submitted_start req) = true
   /\ truthy (submitted_end req) = true
   /\ resolution manual_env req empty_world = Returned (None, []) empty_world
   /\ safe_float manual_env (form req !! "manual_one_way_miles") = of_Z 10
   /\ safe_float manual_env (form req !! "manual_stop_miles") = of_ratio false 15 10
   /\ _read_trips empty_world = Returned [] empty_world).
  { repeat split; vm_compute; reflexivity. }
  split; [exact H|].
  destruct H as (Hm & Hty & Hs & He & Hr & Hbase & Hextra & Hread).
  exact (worked_example manual_env req demo_now empty_world [] None []
           Hm Hty Hs He Hr Hbase Hextra Hread).
Defined.

(** ** C9: rejected submissions *)

(** A submission without start or end address is rejected: the message
    is flashed and the file is not written. *)
Lemma missing_address_rejected env req rate now w :
  method req = "POST" ->
  submitted_start req = "" \/ submitted_end req = "" ->
  mileage env req rate now w
  = Returned (Redirect "mileage") (flashed w msg_addresses_required "danger").
Proof.
  intros Hm Hempty.
  assert (Hgate : ors_enabled env && truthy (submitted_start req)
                  && truthy (submitted_end req) = false).
  { destruct Hempty as [-> | ->]; simpl; rewrite ?andb_false_r; reflexivity. }
  assert (Hr : resolution env req w = Returned (None, []) w).
  { unfold resolution, route. rewrite Hgate. reflexivity. }
  rewrite (mileage_post env req rate now w None [] Hm Hr).
  destruct Hempty as [-> | ->]; simpl.
  - reflexivity.
  - rewrite orb_true_r. reflexivity.
Qed.

(** A submission whose final one-way distance compares [<= 0] is rejected:
    the message is flashed and the file is not written. *)
Lemma nonpositive_distance_rejected env req rate now w c d :
  method req = "POST" ->
  resolution env req w = Returned (c, d) w ->
  leb (final_one_way env req c) zero = true ->
  exists message,
    mileage env req rate now w = Returned (Redirect "mileage") (flashed w message "danger").
Proof.
  intros Hm Hr Hle.
  rewrite (mileage_post env req rate now w c d Hm Hr), Hle.
  destruct (negb _ || negb _); eexists; reflexivity.
Qed.

(** C9 (the code departs from the claim).  With the manual miles given as
    the text [nan], the final one-way distance is NaN, which is not greater
    than zero; the test [one_way_miles <= 0] is false for it, so the
    submission is accepted and a trip with NaN miles is appended. *)
Theorem nan_distance_is_accepted :
  let req := req_manual "nan" "0" in
  exists t,
    ltb zero (final_one_way manual_env req None) = false
    /\ mileage manual_env req rate_070 demo_now empty_world
       = Returned (Redirect "index") (saved empty_world [t] "Trip saved." "success")
    /\ one_way_miles t = nan
    /\ total_miles t = nan
    /\ reimbursement t = nan.
Proof.
  intros req. eexists. split; [vm_compute; reflexivity|].
  split; [vm_compute; reflexivity|].
  simpl. repeat split; vm_compute; reflexivity.
Qed.

(** ** [costs]: the amendment of one trip *)

Section CostsFacts.

Variable env : environment.

Lemma amend_loop_not_found key update trips :
  Forall (fun t => same_key t key = false) trips ->
  amend_loop key update trips = (trips, false).
Proof.
  induction 1 as [|t rest Ht _ IH]; simpl.
  - reflexivity.
  - rewrite Ht, IH. reflexivity.
Qed.

Lemma amend_loop_found key update before t after :
  Forall (fun u => same_key u key = false) before ->
  same_key t key = true ->
  amend_loop key update (before ++ t :: after) = (before ++ update t :: after, true).
Proof.
  intros Hbefore Ht. induction Hbefore as [|u rest Hu _ IH]; simpl.
  - rewrite Ht. reflexivity.
  - rewrite Hu, IH. reflexivity.
Qed.

Lemma amend_loop_ext key update update' trips :
  (forall t, update t = update' t) ->
  amend_loop key update trips = amend_loop key update' trips.
Proof.
  intros Hext. induction trips as [|t rest IH]; simpl.
  - reflexivity.
  - rewrite Hext, IH. reflexivity.
Qed.

Lemma amend_trip_spec req t :
  amend_trip (safe_float env (form req !! "gas"))
             (safe_float env (form req !! "food"))
             (safe_float env (form req !! "tolls"))
             (submitted_ticket req) t
  = with_costs t (amended_costs env req (tickets (trip_costs t))).
Proof.
  unfold amend_trip, amended_costs, citation.
  destruct (any_field (submitted_ticket req)).
  - reflexivity.
  - rewrite app_nil_r. reflexivity.
Qed.

(** What [costs] does with a POST once the ledger is loaded. *)
Lemma costs_post req w trips :
  method req = "POST" ->
  _read_trips w = Returned trips w ->
  costs env req w =
    let '(trips', updated) :=
      amend_loop (form req !! "created_at")
        (fun t => with_costs t (amended_costs env req (tickets (trip_costs t))))
        trips in
    if updated : bool
    then Returned (Redirect "costs") (saved w trips' "Costs updated." "success")
    else Returned (Redirect "costs") (flashed w "Trip not found." "danger").
Proof.
  intros Hm Hread. unfold costs.
  unfold mbind at 1, M_bind at 1. rewrite Hread, Hm, String.eqb_refl.
  cbv beta iota zeta. fold (submitted_ticket req).
  rewrite (amend_loop_ext _ _
             (fun t => with_costs t (amended_costs env req (tickets (trip_costs t))))
             trips (amend_trip_spec req)).
  destruct (amend_loop _ _ trips) as [trips' [|]]; reflexivity.
Qed.

End CostsFacts.

(** ** C4: an amendment that matches no trip *)

(** C4.  When no trip of the loaded ledger has the submitted [created_at],
    [costs] writes nothing: the trips file is the one it found, no call of
    [_write_trips] is made, and [Trip not found.] is flashed. *)
Theorem amendment_not_found env req w trips :
  method req = "POST" ->
  _read_trips w = Returned trips w ->
  (forall t, t ∈ trips -> Some (created_at t) <> form req !! "created_at") ->
  exists w',
    costs env req w = Returned (Redirect "costs") w'
    /\ trips_file w' = trips_file w
    /\ writes w' = writes w
    /\ flashes w' = flashes w ++ [("Trip not found.", "danger")].
Proof.
  intros Hm Hread Hnone.
  exists (flashed w "Trip not found." "danger").
  split; [|repeat split].
  rewrite (costs_post env req w trips Hm Hread).
  rewrite amend_loop_not_found; [reflexivity|].
  apply Forall_forall. intros t Ht. specialize (Hnone t Ht).
  unfold same_key. destruct (form req !! "created_at") as [k|]; [|reflexivity].
  apply String.eqb_neq. congruence.
Qed.

Lemma amendment_not_found_witness :
  let req := req_costs "1999-12-31T23:59:59Z" "40" "T-1" in
  (method req = "POST"
   /\ _read_trips demo_ledger = Returned [demo_trip] demo_ledger
   /\ forall t, t ∈ [demo_trip] -> Some (created_at t) <> form req !! "created_at")
  /\ exists w',
    costs manual_env req demo_ledger = Returned (Redirect "costs") w'
    /\ trips_file w' = trips_file demo_ledger
    /\ writes w' = writes demo_ledger
    /\ flashes w' = flashes demo_ledger ++ [("Trip not found.", "danger")].
Proof.
  intros req.
  assert (Hm : method req = "POST") by reflexivity.
  assert (Hread : _read_trips demo_ledger = Returned [demo_trip] demo_ledger)
    by reflexivity.
  assert (Hnone : forall t, t ∈ [demo_trip] ->
                    Some (created_at t) <> form req !! "created_at").
  { intros t Ht. apply list_elem_of_singleton in Ht. subst t.
    vm_compute. discriminate. }
  split; [auto|].
  exact (amendment_not_found manual_env req demo_ledger [demo_trip] Hm Hread Hnone).
Defined.

(** ** C5: two amendments of the same trip *)

Lemma lstrip_blank s : blank s = true -> lstrip s = "".
Proof.
  induction s as [|a s IH]; simpl; [reflexivity|].
  intros H. apply andb_true_iff in H as [-> H]. auto.
Qed.

Lemma lstrip_not_blank s :
  blank s = false -> exists a t, lstrip s = String a t /\ is_space a = false.
Proof.
  induction s as [|a s IH]; simpl; [discriminate|].
  destruct (is_space a) eqn:Ha; simpl.
  - exact IH.
  - intros _. exists a, s. auto.
Qed.

Lemma rstrip_keeps_head a t : is_space a = false -> rstrip (String a t) <> "".
Proof.
  intros Ha. simpl. destruct (rstrip t); [rewrite Ha|]; discriminate.
Qed.

(** [strip] gives the empty text exactly on the texts that are white
    space throughout. *)
Lemma strip_empty_iff s : strip s = "" <-> blank s = true.
Proof.
  unfold strip. split.
  - intros H. destruct (blank s) eqn:Hb; [reflexivity|].
    destruct (lstrip_not_blank s Hb) as (a & t & Hl & Ha).
    rewrite Hl in H. contradiction (rstrip_keeps_head a t Ha).
  - intros H. rewrite (lstrip_blank s H). reflexivity.
Qed.

Lemma truthy_false_iff s : truthy s = false <-> s = "".
Proof. destruct s; simpl; split; congruence. Qed.

Lemma truthy_strip s : truthy (strip s) = negb (blank s).
Proof.
  pose proof (strip_empty_iff s) as Hs.
  pose proof (truthy_false_iff (strip s)) as Ht.
  destruct (truthy (strip s)), (blank s); simpl; try reflexivity; exfalso.
  - assert (strip s = "") as E by (apply Hs; reflexivity).
    apply Ht in E. discriminate.
  - assert (strip s = "") as E by (apply Ht; reflexivity).
    apply Hs in E. discriminate.
Qed.

(** The guard of line 247 holds exactly when some ticket field of the
    form holds more than white space. *)
Lemma any_field_given req : any_field (submitted_ticket req) = ticket_given req.
Proof.
  unfold any_field, submitted_ticket, ticket_given. simpl.
  rewrite !truthy_strip. reflexivity.
Qed.

(** C5, as stated, at a concrete input: two amendments of the same trip,
    each with a ticket number field that is not empty (three spaces); the
    amounts are replaced, and no ticket is appended: the trip has no
    ticket after the two, not two. *)
Lemma blank_ticket_field_appends_nothing :
  let req1 := req_costs "2025-01-01T00:00:00Z" "40" "   " in
  let req2 := req_costs "2025-01-01T00:00:00Z" "15" "   " in
  form req1 !! "ticket_number" = Some "   "
  /\ form req2 !! "ticket_number" = Some "   "
  /\ "   " <> ""
  /\ exists w1 w2 t2,
       costs manual_env req1 demo_ledger = Returned (Redirect "costs") w1
       /\ costs manual_env req2 w1 = Returned (Redirect "costs") w2
       /\ trips_file w2 = Document [t2]
       /\ gas (trip_costs t2) = of_Z 15
       /\ tickets (trip_costs t2) = []
       /\ length (tickets (trip_costs t2)) <> 2%nat.
Proof.
  intros req1 req2.
  split; [vm_compute; reflexivity|]. split; [vm_compute; reflexivity|].
  split; [discriminate|].
  eexists _, _, _. split; [vm_compute; reflexivity|].
  split; [vm_compute; reflexivity|]. split; [reflexivity|].
  split; [vm_compute; reflexivity|]. split; [reflexivity|].
  simpl. discriminate.
Qed.

(** C5 (amended).  Two amendments addressed to the first trip [t] with
    that [created_at]: after each one the trip's gas, food and tolls are
    the amounts the form of that amendment gives, whatever they were
    before, and its other fields are as they were.  Each amendment in
    which some ticket field holds more than white space appends one ticket,
    made of its five fields stripped, and an amendment whose ticket fields
    are all missing, empty or white space appends none: after two
    amendments that each give such a field the trip has two tickets more,
    those two in order.  Every other trip is as it was. *)
Theorem two_amendments env req1 req2 w before t after :
  method req1 = "POST" ->
  method req2 = "POST" ->
  _read_trips w = Returned (before ++ t :: after) w ->
  Forall (fun u => created_at u <> created_at t) before ->
  form req1 !! "created_at" = Some (created_at t) ->
  form req2 !! "created_at" = Some (created_at t) ->
  exists w1 w2 t1 t2,
    costs env req1 w = Returned (Redirect "costs") w1
    /\ costs env req2 w1 = Returned (Redirect "costs") w2
    /\ trips_file w1 = Document (before ++ t1 :: after)
    /\ trips_file w2 = Document (before ++ t2 :: after)
    /\ with_costs t1 no_costs = with_costs t no_costs
    /\ with_costs t2 no_costs = with_costs t no_costs
    /\ gas (trip_costs t1) = entered_amount env req1 "gas"
    /\ food (trip_costs t1) = entered_amount env req1 "food"
    /\ tolls (trip_costs t1) = entered_amount env req1 "tolls"
    /\ gas (trip_costs t2) = entered_amount env req2 "gas"
    /\ food (trip_costs t2) = entered_amount env req2 "food"
    /\ tolls (trip_costs t2) = entered_amount env req2 "tolls"
    /\ tickets (trip_costs t1)
       = tickets (trip_costs t)
         ++ (if ticket_given req1 then [submitted_ticket req1] else [])
    /\ tickets (trip_costs t2)
       = tickets (trip_costs t)
         ++ (if ticket_given req1 then [submitted_ticket req1] else [])
         ++ (if ticket_given req2 then [submitted_ticket req2] else [])
    /\ (ticket_given req1 = true ->
        ticket_given req2 = true ->
        tickets (trip_costs t2)
        = tickets (trip_costs t) ++ [submitted_ticket req1; submitted_ticket req2]
        /\ length (tickets (trip_costs t2))
           = (length (tickets (trip_costs t)) + 2)%nat).
Proof.
  intros Hm1 Hm2 Hread Hbefore Hk1 Hk2.
  assert (Hmiss : forall k, k = Some (created_at t) ->
            Forall (fun u => same_key u k = false) before).
  { intros k ->. eapply Forall_impl; [exact Hbefore|].
    intros u Hu. simpl. apply String.eqb_neq. exact Hu. }
  set (t1 := with_costs t (amended_costs env req1 (tickets (trip_costs t)))).
  set (t2 := with_costs t
               (amended_costs env req2 (tickets (trip_costs t) ++ citation req1))).
  set (w1 := saved w (before ++ t1 :: after) "Costs updated." "success").
  set (w2 := saved w1 (before ++ t2 :: after) "Costs updated." "success").
  exists w1, w2, t1, t2.
  assert (H1 : costs env req1 w = Returned (Redirect "costs") w1).
  { rewrite (costs_post env req1 w _ Hm1 Hread).
    rewrite (amend_loop_found _ _ before t after (Hmiss _ Hk1)).
    - reflexivity.
    - rewrite Hk1. simpl. apply String.eqb_refl. }
  assert (H2 : costs env req2 w1 = Returned (Redirect "costs") w2).
  { assert (Hread1 : _read_trips w1 = Returned (before ++ t1 :: after) w1)
      by reflexivity.
    rewrite (costs_post env req2 w1 _ Hm2 Hread1).
    rewrite (amend_loop_found _ _ before t1 after (Hmiss _ Hk2)).
    - reflexivity.
    - rewrite Hk2. simpl. apply String.eqb_refl. }
  assert (Ht1 : tickets (trip_costs t1)
                = tickets (trip_costs t)
                  ++ (if ticket_given req1 then [submitted_ticket req1] else [])).
  { simpl. unfold citation. rewrite any_field_given. reflexivity. }
  assert (Ht2 : tickets (trip_costs t2)
                = tickets (trip_costs t)
                  ++ (if ticket_given req1 then [submitted_ticket req1] else [])
                  ++ (if ticket_given req2 then [submitted_ticket req2] else [])).
  { simpl. unfold citation. rewrite !any_field_given, <- app_assoc. reflexivity. }
  repeat (split; [first [assumption | reflexivity]|]).
  intros Hg1 Hg2. rewrite Ht2, Hg1, Hg2. simpl.
  split; [reflexivity|]. rewrite length_app. simpl. lia.
Qed.

Lemma two_amendments_witness :
  let req1 := req_costs "2025-01-01T00:00:00Z" "40" "T-1" in
  let req2 := req_costs "2025-01-01T00:00:00Z" "15" "T-2" in
  (method req1 = "POST"
   /\ method req2 = "POST"
   /\ _read_trips demo_ledger = Returned ([] ++ demo_trip :: []) demo_ledger
   /\ Forall (fun u => created_at u <> created_at demo_trip) []
   /\ form req1 !! "created_at" = Some (created_at demo_trip)
   /\ form req2 !! "created_at" = Some (created_at demo_trip))
  /\ exists w1 w2 t2,
    costs manual_env req1 demo_ledger = Returned (Redirect "costs") w1
    /\ costs manual_env req2 w1 = Returned (Redirect "costs") w2
    /\ trips_file w2 = Document [t2]
    /\ gas (trip_costs t2) = of_Z 15
    /\ food (trip_costs t2) = of_ratio false 125 10
    /\ tolls (trip_costs t2) = of_Z 3
    /\ tickets (trip_costs t2)
       = [Ticket "" "" "" "" "T-1"; Ticket "" "" "" "" "T-2"]
    /\ length (tickets (trip_costs t2)) = 2%nat.
Proof.
  intros req1 req2.
  assert (Hm1 : method req1 = "POST") by reflexivity.
  assert (Hm2 : method req2 = "POST") by reflexivity.
  assert (Hread : _read_trips demo_ledger = Returned ([] ++ demo_trip :: []) demo_ledger)
    by reflexivity.
  assert (Hbefore : Forall (fun u => created_at u <> created_at demo_trip) [])
    by constructor.
  assert (Hk1 : form req1 !! "created_at" = Some (created_at demo_trip))
    by (vm_compute; reflexivity).
  assert (Hk2 : form req2 !! "created_at" = Some (created_at demo_trip))
    by (vm_compute; reflexivity).
  split; [auto 10|].
  destruct (two_amendments manual_env req1 req2 demo_ledger [] demo_trip []
              Hm1 Hm2 Hread Hbefore Hk1 Hk2)
    as (w1 & w2 & t1 & t2 & H1 & H2 & _ & Hf2 & _ & _ & _ & _ & _
        & Hgas & Hfood & Htolls & _ & _ & Hboth).
  assert (Hg1 : ticket_given req1 = true) by (vm_compute; reflexivity).
  assert (Hg2 : ticket_given req2 = true) by (vm_compute; reflexivity).
  destruct (Hboth Hg1 Hg2) as [Htickets Hlen].
  exists w1, w2, t2.
  split; [exact H1|]. split; [exact H2|]. split; [exact Hf2|].
  split; [rewrite Hgas; vm_compute; reflexivity|].
  split; [rewrite Hfood; vm_compute; reflexivity|].
  split; [rewrite Htolls; vm_compute; reflexivity|].
  split; [rewrite Htickets; vm_compute; reflexivity|].
  rewrite Hlen. reflexivity.
Defined.

(** The two amendments above, evaluated: the gas of the second one
    replaces that of the first, and there are two tickets. *)
Example two_amendments_evaluated :
  exists w1 w2 t2,
    costs manual_env (req_costs "2025-01-01T00:00:00Z" "40" "T-1") demo_ledger
      = Returned (Redirect "costs") w1
    /\ costs manual_env (req_costs "2025-01-01T00:00:00Z" "15" "T-2") w1
      = Returned (Redirect "costs") w2
    /\ trips_file w2 = Document [t2]
    /\ gas (trip_costs t2) = of_Z 15
    /\ length (tickets (trip_costs t2)) = 2%nat.
Proof.
  eexists _, _, _. split; [vm_compute; reflexivity|].
  split; [vm_compute; reflexivity|].
  split; [reflexivity|]. split; vm_compute; reflexivity.
Qed.

(** ** C6: loading the ledger *)

(** With the file absent, or holding text that is not JSON, [_read_trips]
    returns the empty list. *)
Lemma read_trips_missing_or_unparseable w :
  trips_file w = Absent \/ (exists text, trips_file w = Unparseable text) ->
  _read_trips w = Returned [] w.
Proof.
  unfold _read_trips. intros [-> | [text ->]]; reflexivity.
Qed.

(** C6 (the code departs from the claim).  With the file holding the single
    byte [0xff], which is not UTF-8, [read_text] raises
    [UnicodeDecodeError]; the handler of [_read_trips] catches
    [json.JSONDecodeError] only, so the exception reaches the caller, and
    through it the callers [mileage] and [costs]. *)
Theorem read_trips_raises_on_undecodable_file :
  let w := World (Undecodable [Byte.xff]) [] [] in
  _read_trips w = Raised UnicodeDecodeError w
  /\ costs manual_env (req_costs "2025-01-01T00:00:00Z" "40" "T-1") w
     = Raised UnicodeDecodeError w
  /\ mileage manual_env (req_A_B "one_way") rate_070 demo_now w
     = Raised UnicodeDecodeError w.
Proof.
  intros w. split; [reflexivity|]. split; vm_compute; reflexivity.
Qed.

(** ** C8: appending a trip *)

(** C8.  Appending a trip to a ledger that loads as [trips] writes
    [trips] followed by the new trip: every trip is read back at the index
    it had, unchanged, and the new trip is the last. *)
Theorem append_keeps_ledger w trips new :
  _read_trips w = Returned trips w ->
  exists w',
    append_trip new w = Returned tt w'
    /\ _read_trips w' = Returned (trips ++ [new]) w'
    /\ (forall i t, trips !! i = Some t -> (trips ++ [new]) !! i = Some t)
    /\ (trips ++ [new]) !! length trips = Some new
    /\ length (trips ++ [new]) = S (length trips).
Proof.
  intros Hread.
  exists (World (Document (trips ++ [new])) (writes w ++ [trips ++ [new]]) (flashes w)).
  split.
  { unfold append_trip, mbind, M_bind. rewrite Hread. reflexivity. }
  split; [reflexivity|]. split.
  { intros i t Hi. apply lookup_app_l_Some. exact Hi. }
  split.
  { rewrite lookup_app_r by lia. rewrite Nat.sub_diag. reflexivity. }
  rewrite length_app. simpl. lia.
Qed.

Lemma append_keeps_ledger_witness :
  _read_trips demo_ledger = Returned [demo_trip] demo_ledger
  /\ exists w',
    append_trip (with_costs demo_trip no_costs) demo_ledger = Returned tt w'
    /\ _read_trips w' = Returned ([demo_trip] ++ [with_costs demo_trip no_costs]) w'
    /\ (forall i t, [demo_trip] !! i = Some t ->
          ([demo_trip] ++ [with_costs demo_trip no_costs]) !! i = Some t)
    /\ ([demo_trip] ++ [with_costs demo_trip no_costs]) !! length [demo_trip]
       = Some (with_costs demo_trip no_costs)
    /\ length ([demo_trip] ++ [with_costs demo_trip no_costs]) = S (length [demo_trip]).
Proof.
  assert (Hread : _read_trips demo_ledger = Returned [demo_trip] demo_ledger)
    by reflexivity.
  split; [exact Hread|].
  exact (append_keeps_ledger demo_ledger [demo_trip]
           (with_costs demo_trip no_costs) Hread).
Defined.

(** An accepted submission is such an append. *)
Lemma mileage_appends env req rate now w w' :
  mileage env req rate now w = Returned (Redirect "index") w' ->
  exists trips t,
    _read_trips w = Returned trips w
    /\ _read_trips w' = Returned (trips ++ [t]) w'.
Proof.
  intros H.
  apply mileage_saved_inv in H as (c & d & trips & _ & _ & _ & _ & _ & Hread & ->).
  exists trips, (submitted_trip env req rate now c d).
  split; [exact Hread | reflexivity].
Qed.

(** ** C10: the stops of a submission *)

Lemma stop_slot_insert f k v i :
  k <> stop_key i "address" ->
  k <> stop_key i "datetime" ->
  stop_slot (<[k := v]> f) i = stop_slot f i.
Proof.
  intros Ha Hd. unfold stop_slot, form_get.
  rewrite !lookup_insert_ne by assumption. reflexivity.
Qed.

Lemma stop_slot_length f i : (length (stop_slot f i) <= 1)%nat.
Proof. unfold stop_slot. destruct (_ || _); simpl; lia. Qed.

Lemma pretty_N_char_digit n : exists v, digit_value (pretty_N_char n) = Some v.
Proof.
  unfold pretty_N_char. repeat case_match; eexists; reflexivity.
Qed.

Lemma pretty_N_go_digits x s :
  digits_only s = true -> digits_only (pretty_N_go x s) = true.
Proof.
  revert s. induction (N.lt_wf_0 x) as [x _ IH]; intros s Hs.
  assert (x = 0 \/ 0 < x)%N as [-> | Hpos] by lia.
  - rewrite pretty_N_go_0. exact Hs.
  - rewrite pretty_N_go_step by exact Hpos. apply IH.
    + apply N.div_lt; [exact Hpos | reflexivity].
    + simpl. destruct (pretty_N_char_digit (x `mod` 10)) as [v ->]. exact Hs.
Qed.

Lemma pretty_nat_digits (i : nat) : digits_only (pretty i) = true.
Proof.
  unfold pretty, pretty_nat, pretty, pretty_N.
  destruct (decide (N.of_nat i = 0%N)); [reflexivity|].
  apply pretty_N_go_digits. reflexivity.
Qed.

(** Two digit sequences followed by an underscore are equal as soon as
    what they begin is. *)
Lemma digits_before_underscore p q r r' :
  digits_only p = true -> digits_only q = true ->
  p +:+ "_" +:+ r = q +:+ "_" +:+ r' -> p = q.
Proof.
  revert q. induction p as [|a p IH]; intros [|b q] Hp Hq Heq; simpl in *.
  - reflexivity.
  - injection Heq as <- _. discriminate.
  - injection Heq as -> _. discriminate.
  - injection Heq as -> Heq.
    destruct (digit_value b); [|discriminate].
    f_equal. exact (IH q Hp Hq Heq).
Qed.

Lemma stop_key_inj i j field field' :
  stop_key i field = stop_key j field' -> i = j.
Proof.
  unfold stop_key. intros Heq. injection Heq as Heq.
  apply digits_before_underscore in Heq; auto using pretty_nat_digits.
  apply (inj pretty) in Heq. exact Heq.
Qed.

(** The fields of a sixth or later stop are not among those read. *)
Lemma later_stop_key_unread i field : (5 < i)%nat -> stop_key i field ∉ stop_keys.
Proof.
  intros Hi Hin. apply list_elem_of_In in Hin. unfold stop_keys in Hin.
  apply in_flat_map in Hin as (j & Hj & Hin).
  apply in_seq in Hj.
  destruct Hin as [Heq | [Heq | []]]; symmetry in Heq;
    apply stop_key_inj in Heq; lia.
Qed.

Lemma read_stops_insert f k v :
  k ∉ stop_keys -> read_stops (<[k := v]> f) = read_stops f.
Proof.
  intros Hk. unfold read_stops. simpl.
  rewrite !stop_slot_insert; [reflexivity|..];
    intros ->; apply Hk; unfold stop_keys; simpl;
    repeat first [apply list_elem_of_here | apply list_elem_of_further].
Qed.

(** C10.  [mileage] stores at most five stops, read from the address and
    datetime fields of the slots 1 to 5: a form field under any other name
    changes nothing, and in particular the fields of a sixth or later stop
    appear neither in the stops nor among the waypoints of the route, which
    has at most seven of them. *)
Theorem at_most_five_stops f :
  (length (read_stops f) <= 5)%nat
  /\ (forall k v, k ∉ stop_keys -> read_stops (<[k := v]> f) = read_stops f)
  /\ (forall i field v, (5 < i)%nat ->
        read_stops (<[stop_key i field := v]> f) = read_stops f
        /\ forall s e,
             waypoints s (read_stops (<[stop_key i field := v]> f)) e
             = waypoints s (read_stops f) e)
  /\ (forall s e, length (waypoints s (read_stops f) e) <= 7)%nat.
Proof.
  assert (Hlen : (length (read_stops f) <= 5)%nat).
  { unfold read_stops. simpl. rewrite !length_app.
    pose proof (stop_slot_length f 1). pose proof (stop_slot_length f 2).
    pose proof (stop_slot_length f 3). pose proof (stop_slot_length f 4).
    pose proof (stop_slot_length f 5). simpl. lia. }
  split; [exact Hlen|]. split; [apply read_stops_insert|]. split.
  - intros i field v Hi.
    pose proof (read_stops_insert f _ v (later_stop_key_unread i field Hi)) as Hsame.
    split; [exact Hsame|]. intros s e. rewrite Hsame. reflexivity.
  - intros s e. unfold waypoints. rewrite length_cons, length_app, length_map. simpl.
    pose proof (length_filter (fun s0 => truthy (stop_address s0) = true) (read_stops f)).
    lia.
Qed.

(** Six stops submitted: the five first are stored, the sixth is not. *)
Example six_stops_submitted :
  let f := form_of [("stop_1_address", "S1"); ("stop_2_address", "S2");
                    ("stop_3_address", "S3"); ("stop_4_address", "S4");
                    ("stop_5_address", "S5"); ("stop_6_address", "S6")] in
  map stop_address (read_stops f) = ["S1"; "S2"; "S3"; "S4"; "S5"]
  /\ waypoints "A" (read_stops f) "B" = ["A"; "S1"; "S2"; "S3"; "S4"; "S5"; "B"].
Proof. split; vm_compute; reflexivity. Qed.

(** ** More about [costs]: what an amendment can and cannot change *)

Section AmendmentFacts.

Variable env : environment.

Lemma with_costs_twice t c c' : with_costs (with_costs t c) c' = with_costs t c'.
Proof. reflexivity. Qed.

Lemma with_costs_own t : with_costs t (trip_costs t) = t.
Proof. destruct t; reflexivity. Qed.

(** The loop either finds no trip and changes nothing, or rewrites the
    first trip with the key and no other. *)
Lemma amend_loop_cases key update trips :
  (first_match key trips = None
   /\ Forall (fun u => same_key u key = false) trips
   /\ amend_loop key update trips = (trips, false))
  \/ (exists before t after,
        trips = before ++ t :: after
        /\ Forall (fun u => same_key u key = false) before
        /\ same_key t key = true
        /\ first_match key trips = Some (length before)
        /\ amend_loop key update trips = (before ++ update t :: after, true)).
Proof.
  induction trips as [|u rest IH]; simpl.
  - left. repeat split. constructor.
  - destruct (same_key u key) eqn:Hu.
    + right. exists [], u, rest. repeat split; [constructor | exact Hu].
    + destruct IH as [(Hnone & Hall & Hloop) | (before & t & after & -> & Hb & Ht & Hfirst & Hloop)].
      * left. rewrite Hnone, Hloop. repeat split. constructor; assumption.
      * right. exists (u :: before), t, after. rewrite Hfirst, Hloop.
        repeat split; [constructor; assumption | exact Ht].
Qed.

(** A request that is not a POST only loads the ledger. *)
Lemma costs_get req w trips :
  method req <> "POST" ->
  _read_trips w = Returned trips w ->
  costs env req w = Returned (Render "costs.html") w.
Proof.
  intros Hm Hread. unfold costs, mbind, M_bind. rewrite Hread.
  apply String.eqb_neq in Hm. rewrite Hm. reflexivity.
Qed.

(** The three ways [costs] ends once the ledger is loaded. *)
Lemma costs_outcome req w trips :
  _read_trips w = Returned trips w ->
  (method req <> "POST" /\ costs env req w = Returned (Render "costs.html") w)
  \/ (method req = "POST"
      /\ first_match (form req !! "created_at") trips = None
      /\ costs env req w
         = Returned (Redirect "costs") (flashed w "Trip not found." "danger"))
  \/ (method req = "POST"
      /\ exists before t after,
           trips = before ++ t :: after
           /\ first_match (form req !! "created_at") trips = Some (length before)
           /\ costs env req w
              = Returned (Redirect "costs")
                  (saved w
                     (before
                        ++ with_costs t
                             (amended_costs env req (tickets (trip_costs t)))
                        :: after)
                     "Costs updated." "success")).
Proof.
  intros Hread.
  destruct (String.eqb (method req) "POST") eqn:Hm.
  - apply String.eqb_eq in Hm. right.
    rewrite (costs_post env req w trips Hm Hread).
    destruct (amend_loop_cases (form req !! "created_at")
                (fun t => with_costs t (amended_costs env req (tickets (trip_costs t))))
                trips)
      as [(Hnone & _ & Hloop) | (before & t & after & Heq & _ & _ & Hfirst & Hloop)];
      rewrite Hloop.
    + left. auto.
    + right. split; [exact Hm|]. exists before, t, after. auto.
  - apply String.eqb_neq in Hm. left. split; [exact Hm|].
    apply (costs_get req w trips); assumption.
Qed.

Lemma read_saved w trips message category :
  _read_trips (saved w trips message category)
  = Returned trips (saved w trips message category).
Proof. reflexivity. Qed.

Lemma read_flashed w trips message category :
  _read_trips w = Returned trips w ->
  _read_trips (flashed w message category)
  = Returned trips (flashed w message category).
Proof.
  unfold _read_trips, flashed. simpl.
  destruct (trips_file w); intros H; inversion H; subst; try reflexivity.
Qed.

(** The ledger after [costs], position by position. *)
Lemma costs_ledger req w trips :
  _read_trips w = Returned trips w ->
  exists r w' trips',
    costs env req w = Returned r w'
    /\ _read_trips w' = Returned trips' w'
    /\ length trips' = length trips
    /\ forall i t,
         trips !! i = Some t ->
         trips' !! i
         = Some (if bool_decide (method req = "POST"
                                 /\ first_match (form req !! "created_at") trips = Some i)
                 then with_costs t (amended_costs env req (tickets (trip_costs t)))
                 else t).
Proof.
  intros Hread.
  destruct (costs_outcome req w trips Hread)
    as [(Hm & Hc) | [(Hm & Hnone & Hc) | (Hm & before & t0 & after & -> & Hfirst & Hc)]].
  - exists (Render "costs.html"), w, trips. repeat (split; [assumption || reflexivity|]).
    intros i t Hi. rewrite bool_decide_eq_false_2; [exact Hi | tauto].
  - eexists _, _, trips. split; [exact Hc|].
    split; [apply read_flashed; exact Hread|]. split; [reflexivity|].
    intros i t Hi. rewrite bool_decide_eq_false_2; [exact Hi|].
    rewrite Hnone. intros [_ ?]; discriminate.
  - eexists _, _, _. split; [exact Hc|]. split; [apply read_saved|].
    split; [rewrite !length_app; reflexivity|].
    intros i t Hi. rewrite Hfirst.
    destruct (decide (i = length before)) as [-> | Hne].
    + rewrite bool_decide_eq_true_2 by auto.
      rewrite list_lookup_middle in Hi by reflexivity. inversion Hi; subst.
      apply list_lookup_middle. reflexivity.
    + rewrite bool_decide_eq_false_2 by (intros [_ [= ?]]; congruence).
      rewrite <- Hi.
      destruct (decide (i < length before)%nat).
      * rewrite !lookup_app_l by assumption. reflexivity.
      * rewrite !lookup_app_r by lia.
        destruct (i - length before)%nat as [|k] eqn:Hk; [lia|]. reflexivity.
Qed.

Lemma first_match_bound key trips i t :
  trips !! i = Some t -> same_key t key = true ->
  exists k, first_match key trips = Some k /\ (k <= i)%nat.
Proof.
  revert i. induction trips as [|u rest IH]; intros i Hi Ht; [discriminate|].
  simpl. destruct (same_key u key) eqn:Hu.
  - exists 0%nat. split; [reflexivity | lia].
  - destruct i as [|i]; simpl in Hi.
    + inversion Hi; subst. congruence.
    + destruct (IH i Hi Ht) as (k & -> & Hk). exists (S k). split; [reflexivity | lia].
Qed.

Lemma first_match_key key trips k :
  first_match key trips = Some k ->
  exists t, trips !! k = Some t /\ same_key t key = true.
Proof.
  revert k. induction trips as [|u rest IH]; intros k Hk; simpl in Hk; [discriminate|].
  destruct (same_key u key) eqn:Hu.
  - inversion Hk; subst. exists u. auto.
  - destruct (first_match key rest) as [j|]; [|discriminate].
    inversion Hk; subst. destruct (IH j eq_refl) as (t & Ht & Hs).
    exists t. auto.
Qed.

Lemma first_match_same_keys key (l l' : list trip) :
  created_at <$> l = created_at <$> l' ->
  first_match key l = first_match key l'.
Proof.
  revert l'. induction l as [|t rest IH]; intros [|t' rest'] Heq; simpl in *;
    try discriminate; [reflexivity|].
  inversion Heq as [[Hk Hrest]].
  unfold same_key. rewrite Hk, (IH rest' Hrest). reflexivity.
Qed.

End AmendmentFacts.

(** X1.  Whatever the request, [costs] leaves every trip in its place with
    every field other than its costs as it was: the ledger read after the
    request has the same trips, in the same order, up to their [costs]
    sub-records. *)
Theorem amendment_keeps_trip_data env req w trips :
  _read_trips w = Returned trips w ->
  exists r w' trips',
    costs env req w = Returned r w'
    /\ _read_trips w' = Returned trips' w'
    /\ length trips' = length trips
    /\ (fun t => with_costs t no_costs) <$> trips'
       = (fun t => with_costs t no_costs) <$> trips.
Proof.
  intros Hread.
  destruct (costs_ledger env req w trips Hread) as (r & w' & trips' & Hc & Hr & Hlen & Hat).
  exists r, w', trips'. repeat (split; [assumption|]).
  apply list_eq. intros i. rewrite !list_lookup_fmap.
  destruct (trips !! i) as [t|] eqn:Hi.
  - rewrite (Hat i t Hi). simpl. destruct (bool_decide _); reflexivity.
  - apply lookup_ge_None in Hi. rewrite <- Hlen in Hi.
    apply lookup_ge_None in Hi. rewrite Hi. reflexivity.
Qed.

Lemma amendment_keeps_trip_data_witness :
  let req := req_costs "2025-01-01T00:00:00Z" "40" "T-1" in
  _read_trips demo_ledger = Returned [demo_trip] demo_ledger
  /\ exists r w' trips',
    costs manual_env req demo_ledger = Returned r w'
    /\ _read_trips w' = Returned trips' w'
    /\ length trips' = length [demo_trip]
    /\ (fun t => with_costs t no_costs) <$> trips'
       = (fun t => with_costs t no_costs) <$> [demo_trip].
Proof.
  intros req. split; [reflexivity|].
  exact (amendment_keeps_trip_data manual_env req demo_ledger [demo_trip] eq_refl).
Defined.

(** X2.  [costs] amends the first trip with the submitted [created_at] and
    no other: every other trip is read back unchanged, and so is any trip
    that comes after one with the same [created_at], whatever the
    request. *)
Theorem only_first_match_is_amended env req w trips :
  _read_trips w = Returned trips w ->
  exists r w' trips',
    costs env req w = Returned r w'
    /\ _read_trips w' = Returned trips' w'
    /\ (forall i t,
          trips !! i = Some t ->
          first_match (form req !! "created_at") trips <> Some i ->
          trips' !! i = Some t)
    /\ (forall i j ti tj,
          (i < j)%nat ->
          trips !! i = Some ti ->
          trips !! j = Some tj ->
          created_at ti = created_at tj ->
          trips' !! j = Some tj).
Proof.
  intros Hread.
  destruct (costs_ledger env req w trips Hread) as (r & w' & trips' & Hc & Hr & Hlen & Hat).
  exists r, w', trips'. repeat (split; [assumption|]).
  assert (Hother : forall i t,
            trips !! i = Some t ->
            first_match (form req !! "created_at") trips <> Some i ->
            trips' !! i = Some t).
  { intros i t Hi Hne. rewrite (Hat i t Hi).
    rewrite bool_decide_eq_false_2; [reflexivity | tauto]. }
  split; [exact Hother|].
  intros i j ti tj Hij Hi Hj Hsame. apply Hother; [exact Hj|].
  intros Hfirst.
  destruct (first_match_key _ _ _ Hfirst) as (t & Ht & Hkey).
  rewrite Hj in Ht. inversion Ht; subst t.
  assert (Hkeyi : same_key ti (form req !! "created_at") = true).
  { unfold same_key in *. rewrite Hsame. exact Hkey. }
  destruct (first_match_bound _ _ _ _ Hi Hkeyi) as (k & Hk & Hle).
  rewrite Hfirst in Hk. inversion Hk. lia.
Qed.

Lemma only_first_match_is_amended_witness :
  let req := req_costs "2025-01-01T00:00:00Z" "40" "T-1" in
  let w := World (Document [demo_trip; demo_trip]) [] [] in
  _read_trips w = Returned [demo_trip; demo_trip] w
  /\ exists r w' trips',
    costs manual_env req w = Returned r w'
    /\ _read_trips w' = Returned trips' w'
    /\ (forall i t,
          [demo_trip; demo_trip] !! i = Some t ->
          first_match (form req !! "created_at") [demo_trip; demo_trip] <> Some i ->
          trips' !! i = Some t)
    /\ (forall i j ti tj,
          (i < j)%nat ->
          [demo_trip; demo_trip] !! i = Some ti ->
          [demo_trip; demo_trip] !! j = Some tj ->
          created_at ti = created_at tj ->
          trips' !! j = Some tj).
Proof.
  intros req w. split; [reflexivity|].
  exact (only_first_match_is_amended manual_env req w [demo_trip; demo_trip] eq_refl).
Defined.

(** X3.  Tickets are only ever appended: after any request to [costs],
    each trip holds the tickets it had, in the same order, followed by at
    most one new ticket. *)
Theorem tickets_only_grow env req w trips :
  _read_trips w = Returned trips w ->
  exists r w' trips',
    costs env req w = Returned r w'
    /\ _read_trips w' = Returned trips' w'
    /\ forall i t,
         trips !! i = Some t ->
         exists t' added,
           trips' !! i = Some t'
           /\ tickets (trip_costs t') = tickets (trip_costs t) ++ added
           /\ (length added <= 1)%nat.
Proof.
  intros Hread.
  destruct (costs_ledger env req w trips Hread) as (r & w' & trips' & Hc & Hr & Hlen & Hat).
  exists r, w', trips'. repeat (split; [assumption|]).
  intros i t Hi. rewrite (Hat i t Hi).
  destruct (bool_decide _).
  - eexists _, (citation req). split; [reflexivity|]. split; [reflexivity|].
    unfold citation. destruct (any_field _); simpl; lia.
  - exists t, []. split; [reflexivity|]. rewrite app_nil_r. split; [reflexivity|].
    simpl; lia.
Qed.

Lemma tickets_only_grow_witness :
  let req := req_costs "2025-01-01T00:00:00Z" "40" "T-1" in
  _read_trips demo_ledger = Returned [demo_trip] demo_ledger
  /\ exists r w' trips',
    costs manual_env req demo_ledger = Returned r w'
    /\ _read_trips w' = Returned trips' w'
    /\ forall i t,
         [demo_trip] !! i = Some t ->
         exists t' added,
           trips' !! i = Some t'
           /\ tickets (trip_costs t') = tickets (trip_costs t) ++ added
           /\ (length added <= 1)%nat.
Proof.
  intros req. split; [reflexivity|].
  exact (tickets_only_grow manual_env req demo_ledger [demo_trip] eq_refl).
Defined.

(** X4.  [costs] writes the file exactly when the request is a POST and
    some trip has the submitted [created_at], and then once, flashing
    [Costs updated.]; a request that is not a POST, or that matches no
    trip, leaves the file and the record of writes as they were. *)
Theorem costs_writes_only_on_match env req w trips :
  _read_trips w = Returned trips w ->
  exists r w',
    costs env req w = Returned r w'
    /\ (method req = "POST"
        /\ is_Some (first_match (form req !! "created_at") trips) ->
        exists trips',
          trips_file w' = Document trips'
          /\ writes w' = writes w ++ [trips']
          /\ flashes w' = flashes w ++ [("Costs updated.", "success")]
          /\ r = Redirect "costs")
    /\ (~ (method req = "POST"
           /\ is_Some (first_match (form req !! "created_at") trips)) ->
        trips_file w' = trips_file w /\ writes w' = writes w).
Proof.
  intros Hread.
  destruct (costs_outcome env req w trips Hread)
    as [(Hm & Hc) | [(Hm & Hnone & Hc) | (Hm & before & t0 & after & -> & Hfirst & Hc)]];
    eexists _, _; (split; [exact Hc|]); split.
  - intros [? _]; contradiction.
  - intros _. split; reflexivity.
  - rewrite Hnone. intros [_ [? ?]]; discriminate.
  - intros _. split; reflexivity.
  - intros _. eexists. repeat split.
  - intros Hno. exfalso. apply Hno. split; [exact Hm|]. rewrite Hfirst. eexists; reflexivity.
Qed.

Lemma costs_writes_only_on_match_witness :
  let req := req_costs "2025-01-01T00:00:00Z" "40" "T-1" in
  _read_trips demo_ledger = Returned [demo_trip] demo_ledger
  /\ exists r w',
    costs manual_env req demo_ledger = Returned r w'
    /\ (method req = "POST"
        /\ is_Some (first_match (form req !! "created_at") [demo_trip]) ->
        exists trips',
          trips_file w' = Document trips'
          /\ writes w' = writes demo_ledger ++ [trips']
          /\ flashes w' = flashes demo_ledger ++ [("Costs updated.", "success")]
          /\ r = Redirect "costs")
    /\ (~ (method req = "POST"
           /\ is_Some (first_match (form req !! "created_at") [demo_trip])) ->
        trips_file w' = trips_file demo_ledger /\ writes w' = writes demo_ledger).
Proof.
  intros req. split; [reflexivity|].
  exact (costs_writes_only_on_match manual_env req demo_ledger [demo_trip] eq_refl).
Defined.

(** X5.  An amendment without any ticket field can be repeated: sending
    the same request to [costs] a second time leaves the file as the first
    left it. *)
Theorem amendment_without_ticket_is_idempotent env req w trips :
  _read_trips w = Returned trips w ->
  citation req = [] ->
  exists r w1 w2,
    costs env req w = Returned r w1
    /\ costs env req w1 = Returned r w2
    /\ trips_file w2 = trips_file w1.
Proof.
  intros Hread Hcit.
  destruct (costs_outcome env req w trips Hread)
    as [(Hm & Hc) | [(Hm & Hnone & Hc) | (Hm & before & t0 & after & -> & Hfirst & Hc)]].
  - exists (Render "costs.html"), w, w. auto.
  - pose proof (read_flashed w trips "Trip not found." "danger" Hread) as Hread1.
    destruct (costs_outcome env req _ trips Hread1)
      as [(Hm' & _) | [(_ & _ & Hc') | (_ & before & t0 & after & _ & Hfirst & _)]].
    + contradiction.
    + eexists _, _, _. split; [exact Hc|]. split; [exact Hc'|]. reflexivity.
    + rewrite Hnone in Hfirst. discriminate.
  - set (t1 := with_costs t0 (amended_costs env req (tickets (trip_costs t0)))) in *.
    set (w1 := saved w (before ++ t1 :: after) "Costs updated." "success") in *.
    assert (Hread1 : _read_trips w1 = Returned (before ++ t1 :: after) w1) by reflexivity.
    assert (Hfirst1 : first_match (form req !! "created_at") (before ++ t1 :: after)
                      = Some (length before)).
    { rewrite <- Hfirst. apply first_match_same_keys.
      rewrite !fmap_app. reflexivity. }
    destruct (costs_outcome env req w1 _ Hread1)
      as [(Hm' & _) | [(_ & Hnone & _) | (_ & before' & t' & after' & Heq & Hfirst' & Hc')]].
    + contradiction.
    + rewrite Hfirst1 in Hnone. discriminate.
    + rewrite Hfirst1 in Hfirst'. inversion Hfirst' as [Hlen].
      apply app_inj_1 in Heq as [<- Heq]; [|exact Hlen].
      inversion Heq; subst t' after'.
      eexists _, _, _. split; [exact Hc|]. split; [exact Hc'|].
      simpl. f_equal. f_equal. f_equal.
      unfold t1, amended_costs. rewrite Hcit. simpl. rewrite !app_nil_r. reflexivity.
Qed.

Lemma amendment_without_ticket_is_idempotent_witness :
  let req := req_amounts "2025-01-01T00:00:00Z" "40" in
  (_read_trips demo_ledger = Returned [demo_trip] demo_ledger
   /\ citation req = [])
  /\ exists r w1 w2,
    costs manual_env req demo_ledger = Returned r w1
    /\ costs manual_env req w1 = Returned r w2
    /\ trips_file w2 = trips_file w1.
Proof.
  intros req.
  assert (Hcit : citation req = []) by (vm_compute; reflexivity).
  split; [split; [reflexivity | exact Hcit]|].
  exact (amendment_without_ticket_is_idempotent manual_env req demo_ledger
           [demo_trip] eq_refl Hcit).
Defined.

(** ** More about [mileage]: when it writes and what it rejects *)

Lemma read_trips_world w trips w1 :
  _read_trips w = Returned trips w1 -> w1 = w.
Proof.
  unfold _read_trips. destruct (trips_file w); intros H; inversion H; reflexivity.
Qed.

Lemma read_trips_raised_world w e w1 :
  _read_trips w = Raised e w1 -> w1 = w.
Proof.
  unfold _read_trips. destruct (trips_file w); intros H; inversion H; reflexivity.
Qed.

(** X6.  [mileage] writes the file in one case only, when it answers with
    the redirect to [index]: it has then written once, the loaded ledger
    followed by one trip.  In every other case (a request that is not a
    POST, a rejected submission, an exception from the routing service or
    from the load) the file and the record of writes are untouched. *)
Theorem mileage_writes_only_when_saved env req rate now w :
  (exists w' trips t,
      mileage env req rate now w = Returned (Redirect "index") w'
      /\ _read_trips w = Returned trips w
      /\ trips_file w' = Document (trips ++ [t])
      /\ writes w' = writes w ++ [trips ++ [t]]
      /\ flashes w' = flashes w ++ [("Trip saved.", "success")])
  \/ ((forall w', mileage env req rate now w <> Returned (Redirect "index") w')
      /\ trips_file (final_world (mileage env req rate now w)) = trips_file w
      /\ writes (final_world (mileage env req rate now w)) = writes w).
Proof.
  destruct (String.eqb (method req) "POST") eqn:Hm.
  2:{ right. unfold mileage. rewrite Hm. repeat split. intros w'. discriminate. }
  apply String.eqb_eq in Hm.
  destruct (resolution env req w) as [[c d] w1|e w1] eqn:Hr.
  2:{ pose proof (stateless_raised _ _ _ _ (resolution_stateless env req) Hr); subst w1.
      right. rewrite (mileage_post_raises env req rate now w e Hm Hr).
      repeat split. intros w'. discriminate. }
  pose proof (stateless_returned _ _ _ _ (resolution_stateless env req) Hr); subst w1.
  rewrite (mileage_post env req rate now w c d Hm Hr).
  destruct (negb _ || negb _).
  { right. repeat split. intros w'. discriminate. }
  destruct (leb _ zero).
  { right. repeat split. intros w'. discriminate. }
  destruct (_read_trips w) as [trips w1|e w1] eqn:Hread.
  - apply read_trips_world in Hread as Hw. subst w1.
    left. eexists _, trips, _. repeat split.
  - apply read_trips_raised_world in Hread as Hw. subst w1.
    right. repeat split. intros w'. discriminate.
Qed.

(** X7.  A POST to [mileage] is answered with the message that start and
    end address are required exactly when the start or the end field is
    missing, empty or white space only; the miles, the key and the routing
    service play no part, nothing is written and the routing service is
    not asked. *)
Theorem blank_address_rejected env req rate now w :
  method req = "POST" ->
  mileage env req rate now w
    = Returned (Redirect "mileage") (flashed w msg_addresses_required "danger")
  <-> blank (form_get (form req) "start_address" "") = true
      \/ blank (form_get (form req) "end_address" "") = true.
Proof.
  intros Hm. split.
  - intros H.
    destruct (blank (form_get (form req) "start_address" "")) eqn:Hs; [auto|].
    destruct (blank (form_get (form req) "end_address" "")) eqn:He; [auto|].
    exfalso.
    assert (Hts : truthy (submitted_start req) = true).
    { destruct (truthy (submitted_start req)) eqn:Ht; [reflexivity|].
      apply truthy_false_iff, strip_empty_iff in Ht. congruence. }
    assert (Hte : truthy (submitted_end req) = true).
    { destruct (truthy (submitted_end req)) eqn:Ht; [reflexivity|].
      apply truthy_false_iff, strip_empty_iff in Ht. congruence. }
    destruct (resolution env req w) as [[c d] w1|e w1] eqn:Hr.
    + pose proof (stateless_returned _ _ _ _ (resolution_stateless env req) Hr); subst w1.
      rewrite (mileage_post env req rate now w c d Hm Hr), Hts, Hte in H. simpl in H.
      destruct (leb _ zero).
      * inversion H as [Hf]. apply app_inv_head in Hf. discriminate.
      * destruct (_read_trips w); discriminate.
    + pose proof (stateless_raised _ _ _ _ (resolution_stateless env req) Hr); subst w1.
      rewrite (mileage_post_raises env req rate now w e Hm Hr) in H. discriminate.
  - intros H. apply missing_address_rejected; [exact Hm|].
    destruct H as [H | H]; [left | right]; apply strip_empty_iff; exact H.
Qed.

Lemma blank_address_rejected_witness :
  method req_blank_start = "POST"
  /\ (mileage failing_env req_blank_start rate_070 demo_now demo_ledger
        = Returned (Redirect "mileage")
            (flashed demo_ledger msg_addresses_required "danger")
      <-> blank (form_get (form req_blank_start) "start_address" "") = true
          \/ blank (form_get (form req_blank_start) "end_address" "") = true).
Proof.
  split; [reflexivity|].
  exact (blank_address_rejected failing_env req_blank_start rate_070 demo_now
           demo_ledger eq_refl).
Defined.

(** X8.  A POST with both addresses whose one-way distance, after the
    extra miles are added, compares [<= 0] is answered with the message
    that miles must be greater than 0, and nothing is written; so is, in
    particular, a submission without any miles when no path is
    resolved. *)
Theorem zero_or_negative_distance_rejected env req rate now w c d :
  method req = "POST" ->
  truthy (submitted_start req) = true ->
  truthy (submitted_end req) = true ->
  resolution env req w = Returned (c, d) w ->
  leb (final_one_way env req c) zero = true ->
  mileage env req rate now w
  = Returned (Redirect "mileage") (flashed w msg_miles_positive "danger").
Proof.
  intros Hm Hs He Hr Hle.
  rewrite (mileage_post env req rate now w c d Hm Hr), Hs, He, Hle. reflexivity.
Qed.

Lemma zero_or_negative_distance_rejected_witness :
  (method req_no_miles = "POST"
   /\ truthy (submitted_start req_no_miles) = true
   /\ truthy (submitted_end req_no_miles) = true
   /\ resolution manual_env req_no_miles demo_ledger = Returned (None, []) demo_ledger
   /\ leb (final_one_way manual_env req_no_miles None) zero = true)
  /\ mileage manual_env req_no_miles rate_070 demo_now demo_ledger
     = Returned (Redirect "mileage") (flashed demo_ledger msg_miles_positive "danger").
Proof.
  assert (Hr : resolution manual_env req_no_miles demo_ledger
               = Returned (None, []) demo_ledger) by (vm_compute; reflexivity).
  assert (Hle : leb (final_one_way manual_env req_no_miles None) zero = true)
    by (vm_compute; reflexivity).
  split; [repeat split; assumption || (vm_compute; reflexivity)|].
  exact (zero_or_negative_distance_rejected manual_env req_no_miles rate_070 demo_now
           demo_ledger None [] eq_refl eq_refl eq_refl Hr Hle).
Defined.

(** ** More about the route: the legs asked for and the legs recorded *)

Section LegsFacts.

Variable env : environment.

(** What the loop has done when it ends: the legs it appended are the first
    pairs, in order, with the miles the service returned; the total is
    their running sum; it ends with [ok] after the last pair, and without
    [ok] at the first pair the service has no distance for. *)
Lemma legs_loop_spec pairs total detail w ok total' detail' w' :
  legs_loop env pairs total detail w = Returned (ok, total', detail') w' ->
  exists done,
    detail' = detail ++ done
    /\ map leg_ends done `prefix_of` pairs
    /\ total' = fold_left add (map leg_miles done) total
    /\ Forall (leg_as_computed env w) done
    /\ (ok = true -> map leg_ends done = pairs)
    /\ (ok = false ->
        exists a b,
          pairs !! length done = Some (a, b)
          /\ driving_distance_miles_ors env a b w = Returned None w).
Proof.
  revert total detail.
  induction pairs as [|[a b] rest IH]; intros total detail H; simpl in H.
  - inversion H; subst. exists []. rewrite app_nil_r.
    split; [reflexivity|]. split; [apply prefix_nil|].
    split; [reflexivity|]. split; [constructor|].
    split; [reflexivity | discriminate].
  - unfold mbind, M_bind in H.
    destruct (driving_distance_miles_ors env a b w) as [[x|] w1|e w1] eqn:Hd;
      try discriminate;
      pose proof (stateless_returned _ _ _ _ (driving_distance_stateless env a b) Hd);
      subst w1.
    + apply IH in H as (done & -> & Hpre & -> & Hall & Hok & Hfail).
      exists (Leg a b x :: done). rewrite <- app_assoc. simpl.
      split; [reflexivity|]. split; [apply prefix_cons; exact Hpre|].
      split; [reflexivity|]. split; [constructor; [exact Hd | exact Hall]|].
      split.
      * intros Htrue. rewrite (Hok Htrue). reflexivity.
      * intros Hfalse. exact (Hfail Hfalse).
    + inversion H; subst. exists []. rewrite app_nil_r. simpl.
      split; [reflexivity|]. split; [apply prefix_nil|].
      split; [reflexivity|]. split; [constructor|].
      split; [discriminate|]. intros _. exists a, b. auto.
Qed.

(** The routing phase of a submission: nothing when the gate of line 154
    is closed, the loop over the legs otherwise. *)
Lemma resolution_spec req w c d :
  resolution env req w = Returned (c, d) w ->
  (ors_enabled env && truthy (submitted_start req) && truthy (submitted_end req) = false
   /\ c = None /\ d = [])
  \/ (ors_enabled env && truthy (submitted_start req) && truthy (submitted_end req) = true
      /\ exists ok total,
           legs_loop env (submitted_legs req) zero [] w = Returned (ok, total, d) w
           /\ c = if ok : bool then Some total else None).
Proof.
  unfold resolution, route, submitted_legs.
  set (points := waypoints _ _ _).
  assert (Hlen : (2 <=? length points)%nat = true).
  { apply Nat.leb_le. unfold points, waypoints.
    rewrite length_cons, length_app. simpl. lia. }
  rewrite Hlen.
  destruct (ors_enabled env && _ && _).
  2:{ intros H. inversion H. left. auto. }
  unfold mbind, M_bind.
  destruct (legs_loop env (consecutive points) zero [] w)
    as [[[ok total] detail] w1|e w1] eqn:Hloop; [|discriminate].
  pose proof (stateless_returned _ _ _ _ (legs_loop_stateless env _ _ _) Hloop).
  subst w1. intros H. inversion H; subst. right. split; [reflexivity|].
  exists ok, total. auto.
Qed.

End LegsFacts.

Lemma lookup_consecutive points i a b :
  consecutive points !! i = Some (a, b)
  <-> points !! i = Some a /\ points !! S i = Some b.
Proof.
  unfold consecutive. rewrite lookup_zip_Some, lookup_tail. reflexivity.
Qed.

Lemma length_consecutive points :
  length (consecutive points) = Nat.pred (length points).
Proof.
  unfold consecutive. rewrite length_zip.
  destruct points as [|p ps]; [reflexivity|]. cbn [tail length Nat.pred]. lia.
Qed.

Lemma waypoints_length s st e :
  length (waypoints s st e)
  = S (S (length (filter (fun x => truthy (stop_address x) = true) st))).
Proof.
  unfold waypoints. rewrite length_cons, length_app, length_map. simpl. lia.
Qed.

Lemma waypoints_truthy s st e :
  truthy s = true -> truthy e = true ->
  Forall (fun p => truthy p = true) (waypoints s st e).
Proof.
  intros Hs He. unfold waypoints. constructor; [exact Hs|].
  apply Forall_app. split; [|repeat constructor; exact He].
  apply Forall_forall. intros p Hp. apply list_elem_of_In, in_map_iff in Hp.
  destruct Hp as (x & <- & Hx). apply list_elem_of_In, list_elem_of_filter in Hx.
  tauto.
Qed.

Lemma read_stops_length f : (length (read_stops f) <= 5)%nat.
Proof.
  unfold read_stops. simpl. rewrite !length_app.
  pose proof (stop_slot_length f 1). pose proof (stop_slot_length f 2).
  pose proof (stop_slot_length f 3). pose proof (stop_slot_length f 4).
  pose proof (stop_slot_length f 5). simpl. lia.
Qed.

Lemma stop_slot_filled f i : Forall (fun s => stop_filled s = true) (stop_slot f i).
Proof.
  unfold stop_slot.
  destruct (truthy _ || truthy _) eqn:H; repeat constructor. exact H.
Qed.

Lemma read_stops_filled f : Forall (fun s => stop_filled s = true) (read_stops f).
Proof.
  unfold read_stops. simpl. repeat (apply Forall_app; split).
  all: try apply stop_slot_filled. constructor.
Qed.

(** X9.  The legs [mileage] asks the routing service for form one
    connected path: there is one leg more than there are stops with an
    address, at least one and at most six; the first leg leaves from the
    start address, the last one arrives at the end address, and each leg
    leaves from where the one before arrived.  With a start and an end
    address, no leg has an empty end: a stop without address, kept for its
    datetime, is not on the path. *)
Theorem route_is_connected req :
  length (submitted_legs req)
  = S (length (filter (fun s => truthy (stop_address s) = true) (read_stops (form req))))
  /\ (1 <= length (submitted_legs req) <= 6)%nat
  /\ (exists b, submitted_legs req !! 0%nat = Some (submitted_start req, b))
  /\ (exists a,
        submitted_legs req !! Nat.pred (length (submitted_legs req))
        = Some (a, submitted_end req))
  /\ (forall i a b c d,
        submitted_legs req !! i = Some (a, b) ->
        submitted_legs req !! S i = Some (c, d) ->
        b = c)
  /\ (truthy (submitted_start req) = true ->
      truthy (submitted_end req) = true ->
      forall a b, (a, b) ∈ submitted_legs req -> truthy a = true /\ truthy b = true).
Proof.
  unfold submitted_legs.
  set (st := read_stops (form req)).
  set (points := waypoints (submitted_start req) st (submitted_end req)).
  assert (Hlen : length points
                 = S (S (length (filter (fun x => truthy (stop_address x) = true) st))))
    by apply waypoints_length.
  assert (Hf : (length (filter (fun x => truthy (stop_address x) = true) st) <= 5)%nat).
  { pose proof (length_filter (fun x => truthy (stop_address x) = true) st).
    pose proof (read_stops_length (form req)). unfold st in *. lia. }
  split; [rewrite length_consecutive, Hlen; reflexivity|].
  split; [rewrite length_consecutive, Hlen; simpl; lia|].
  split.
  { destruct (points !! 1%nat) as [b|] eqn:Hb.
    - exists b. apply lookup_consecutive. split; [reflexivity | exact Hb].
    - apply lookup_ge_None in Hb. lia. }
  split.
  { rewrite length_consecutive, Hlen. simpl.
    set (n := length (filter _ st)) in *.
    destruct (points !! n) as [a|] eqn:Ha.
    - exists a. apply lookup_consecutive. split; [exact Ha|].
      unfold points, waypoints.
      change (S n) with (1 + n)%nat. simpl.
      rewrite lookup_app_r by (rewrite length_map; unfold n; lia).
      rewrite length_map. fold n. rewrite Nat.sub_diag. reflexivity.
    - apply lookup_ge_None in Ha. lia. }
  split.
  { intros i a b c d H1 H2.
    apply lookup_consecutive in H1 as [_ H1].
    apply lookup_consecutive in H2 as [H2 _]. congruence. }
  intros Hs He a b Hab.
  pose proof (waypoints_truthy _ st _ Hs He) as Hall. fold points in Hall.
  rewrite Forall_forall in Hall.
  apply list_elem_of_lookup in Hab as [i Hi].
  apply lookup_consecutive in Hi as [Ha Hb].
  split; apply Hall; eapply list_elem_of_lookup_2; eassumption.
Qed.

(** X10.  The legs stored with an accepted trip are legs the routing
    service computed, with the miles it returned, and they are the first
    legs of the path, in order.  When the trip is stored as
    [openrouteservice] they are all the legs of the path and the one-way
    distance is their sum, taken from left to right, plus the extra miles,
    rounded.  When it is stored as [manual] the distance is the manual
    miles plus the extra miles, rounded; with the service configured the
    leg that follows the stored ones is one the service had no distance
    for, and without it no leg is stored. *)
Theorem recorded_legs_follow_route env req rate now w w' :
  mileage env req rate now w = Returned (Redirect "index") w' ->
  exists trips t,
    trips_file w' = Document (trips ++ [t])
    /\ map leg_ends (distance_legs t) `prefix_of` submitted_legs req
    /\ Forall (leg_as_computed env w) (distance_legs t)
    /\ (distance_source t = "openrouteservice" ->
        map leg_ends (distance_legs t) = submitted_legs req
        /\ one_way_miles t
           = round2 (add (legs_total (distance_legs t))
                         (safe_float env (form req !! "manual_stop_miles"))))
    /\ (distance_source t = "manual" ->
        one_way_miles t
        = round2 (add (safe_float env (form req !! "manual_one_way_miles"))
                      (safe_float env (form req !! "manual_stop_miles")))
        /\ (ors_enabled env = true ->
            exists a b,
              submitted_legs req !! length (distance_legs t) = Some (a, b)
              /\ driving_distance_miles_ors env a b w = Returned None w)
        /\ (ors_enabled env = false -> distance_legs t = [])).
Proof.
  intros H.
  apply mileage_saved_inv in H as (c & d & trips & _ & Hr & Hs & He & _ & _ & ->).
  exists trips, (submitted_trip env req rate now c d).
  split; [reflexivity|].
  unfold submitted_trip, new_trip; simpl.
  destruct (resolution_spec env req w c d Hr) as [(Hgate & -> & ->) | (Hgate & ok & total & Hloop & ->)].
  - rewrite Hs, He, !andb_true_r in Hgate.
    split; [apply prefix_nil|]. split; [constructor|].
    split; [discriminate|]. intros _. split; [reflexivity|].
    split; [congruence | reflexivity].
  - rewrite Hs, He, !andb_true_r in Hgate.
    apply legs_loop_spec in Hloop as (done & Hd & Hpre & -> & Hall & Hok & Hfail).
    simpl in Hd. subst d.
    split; [exact Hpre|]. split; [exact Hall|].
    destruct ok.
    + split.
      * intros _. split; [apply Hok; reflexivity | reflexivity].
      * discriminate.
    + split; [discriminate|]. intros _. split; [reflexivity|].
      split; [intros _; apply Hfail; reflexivity | congruence].
Qed.

Lemma recorded_legs_follow_route_witness :
  let req := req_A_B "one_way" in
  let leg_miles := div (of_Z 16093) meters_per_mile in
  let w' := saved empty_world
              [submitted_trip demo_env req rate_070 demo_now
                 (Some (add zero leg_miles)) [Leg "A" "B" leg_miles]]
              "Trip saved." "success" in
  mileage demo_env req rate_070 demo_now empty_world = Returned (Redirect "index") w'
  /\ exists trips t,
    trips_file w' = Document (trips ++ [t])
    /\ map leg_ends (distance_legs t) `prefix_of` submitted_legs req
    /\ Forall (leg_as_computed demo_env empty_world) (distance_legs t)
    /\ (distance_source t = "openrouteservice" ->
        map leg_ends (distance_legs t) = submitted_legs req
        /\ one_way_miles t
           = round2 (add (legs_total (distance_legs t))
                         (safe_float demo_env (form req !! "manual_stop_miles"))))
    /\ (distance_source t = "manual" ->
        one_way_miles t
        = round2 (add (safe_float demo_env (form req !! "manual_one_way_miles"))
                      (safe_float demo_env (form req !! "manual_stop_miles")))
        /\ (ors_enabled demo_env = true ->
            exists a b,
              submitted_legs req !! length (distance_legs t) = Some (a, b)
              /\ driving_distance_miles_ors demo_env a b empty_world
                 = Returned None empty_world)
        /\ (ors_enabled demo_env = false -> distance_legs t = [])).
Proof.
  intros req leg_miles w'.
  assert (H : mileage demo_env req rate_070 demo_now empty_world
              = Returned (Redirect "index") w') by (vm_compute; reflexivity).
  split; [exact H|].
  exact (recorded_legs_follow_route demo_env req rate_070 demo_now empty_world w' H).
Defined.

(** X11.  Without a key ([ORS_API_KEY] unset or empty) the routing
    service plays no part in [mileage]: the outcome is the same whatever
    the two endpoints would answer, failures included, and every trip it
    saves is stored as [manual] with no legs. *)
Theorem without_key_services_are_ignored key fl g d g' d' req rate now w :
  ors_enabled (Environment key fl g d) = false ->
  mileage (Environment key fl g d) req rate now w
  = mileage (Environment key fl g' d') req rate now w
  /\ forall w',
       mileage (Environment key fl g d) req rate now w = Returned (Redirect "index") w' ->
       exists trips t,
         trips_file w' = Document (trips ++ [t])
         /\ distance_source t = "manual"
         /\ distance_legs t = [].
Proof.
  intros Hoff.
  assert (Hoff' : ors_enabled (Environment key fl g' d') = false) by exact Hoff.
  split.
  - destruct (String.eqb (method req) "POST") eqn:Hm.
    + apply String.eqb_eq in Hm.
      rewrite (mileage_post _ req rate now w None [] Hm
                 (unconfigured_is_manual _ req w Hoff)).
      rewrite (mileage_post _ req rate now w None [] Hm
                 (unconfigured_is_manual _ req w Hoff')).
      reflexivity.
    + unfold mileage. rewrite Hm. reflexivity.
  - intros w' H.
    apply mileage_saved_inv in H as (c & l & trips & _ & Hr & _ & _ & _ & _ & ->).
    rewrite (unconfigured_is_manual _ req w Hoff) in Hr. inversion Hr; subst.
    eexists trips, _. split; [reflexivity|]. split; reflexivity.
Qed.

Lemma without_key_services_are_ignored_witness :
  ors_enabled (Environment None float_of_decimal demo_geocode demo_directions) = false
  /\ (mileage (Environment None float_of_decimal demo_geocode demo_directions)
        req_A_B_C rate_070 demo_now empty_world
      = mileage (Environment None float_of_decimal (fun _ => GeocodeRaises)
                   (fun _ _ => RouteRaises))
          req_A_B_C rate_070 demo_now empty_world
      /\ forall w',
           mileage (Environment None float_of_decimal demo_geocode demo_directions)
             req_A_B_C rate_070 demo_now empty_world
           = Returned (Redirect "index") w' ->
           exists trips t,
             trips_file w' = Document (trips ++ [t])
             /\ distance_source t = "manual"
             /\ distance_legs t = []).
Proof.
  split; [reflexivity|].
  exact (without_key_services_are_ignored None float_of_decimal demo_geocode
           demo_directions (fun _ => GeocodeRaises) (fun _ _ => RouteRaises)
           req_A_B_C rate_070 demo_now empty_world eq_refl).
Defined.

(** ** The ledger the two handlers maintain *)

Lemma trip_ok_with_costs t c : trip_ok (with_costs t c) <-> trip_ok t.
Proof. reflexivity. Qed.

(** The trip of an accepted submission is well formed. *)
Lemma submitted_trip_ok env req rate now w c d :
  resolution env req w = Returned (c, d) w ->
  truthy (submitted_start req) = true ->
  truthy (submitted_end req) = true ->
  trip_ok (submitted_trip env req rate now c d).
Proof.
  intros Hr Hs He. unfold trip_ok, submitted_trip, new_trip; simpl.
  split; [exact Hs|]. split; [exact He|].
  split; [apply read_stops_length|]. split; [apply read_stops_filled|].
  fold (submitted_legs req).
  destruct (resolution_spec env req w c d Hr)
    as [(Hgate & -> & ->) | (Hgate & ok & total & Hloop & ->)].
  - split; [right; reflexivity|]. split; [apply prefix_nil | discriminate].
  - apply legs_loop_spec in Hloop as (done & Hd & Hpre & _ & _ & Hok & _).
    simpl in Hd. subst d. destruct ok.
    + split; [left; reflexivity|]. split; [exact Hpre|].
      intros _. apply Hok. reflexivity.
    + split; [right; reflexivity|]. split; [exact Hpre | discriminate].
Qed.

Lemma ledger_ok_read w trips :
  ledger_ok w -> _read_trips w = Returned trips w -> Forall trip_ok trips.
Proof.
  unfold ledger_ok, _read_trips.
  destruct (trips_file w); intros Hok H; inversion H; subst; auto.
Qed.

(** X12.  The two handlers keep the ledger well formed.  If every trip of
    the file has a start and an end address, at most five stops each with
    an address or a datetime, a [distance_source] that is
    [openrouteservice] or [manual], and legs that follow its own path from
    the start (all of the path when the source is [openrouteservice]),
    then so does every trip of the file after any request to [mileage] or
    to [costs]. *)
Theorem handlers_keep_ledger_ok env req rate now w :
  ledger_ok w ->
  ledger_ok (final_world (mileage env req rate now w))
  /\ ledger_ok (final_world (costs env req w)).
Proof.
  intros Hok. split.
  - destruct (mileage env req rate now w) as [r w'|e w'] eqn:Hmil.
    + destruct (String.eqb (method req) "POST") eqn:Hm.
      2:{ unfold mileage in Hmil. rewrite Hm in Hmil. inversion Hmil; subst. exact Hok. }
      apply String.eqb_eq in Hm.
      destruct (resolution env req w) as [[c d] w1|e w1] eqn:Hr.
      2:{ pose proof (stateless_raised _ _ _ _ (resolution_stateless env req) Hr); subst w1.
          rewrite (mileage_post_raises env req rate now w e Hm Hr) in Hmil. discriminate. }
      pose proof (stateless_returned _ _ _ _ (resolution_stateless env req) Hr); subst w1.
      rewrite (mileage_post env req rate now w c d Hm Hr) in Hmil.
      destruct (truthy (submitted_start req)) eqn:Hs; simpl in Hmil.
      2:{ inversion Hmil; subst. exact Hok. }
      destruct (truthy (submitted_end req)) eqn:He; simpl in Hmil.
      2:{ inversion Hmil; subst. exact Hok. }
      destruct (leb _ zero).
      { inversion Hmil; subst. exact Hok. }
      destruct (_read_trips w) as [trips w1|e w1] eqn:Hread; [|discriminate].
      apply read_trips_world in Hread as Hw. subst w1.
      inversion Hmil; subst. simpl. unfold ledger_ok. simpl.
      apply Forall_app. split.
      * exact (ledger_ok_read w trips Hok Hread).
      * constructor; [|constructor].
        exact (submitted_trip_ok env req rate now w c d Hr Hs He).
    + simpl.
      assert (w' = w) as ->; [|exact Hok].
      destruct (String.eqb (method req) "POST") eqn:Hm.
      2:{ unfold mileage in Hmil. rewrite Hm in Hmil. discriminate. }
      apply String.eqb_eq in Hm.
      destruct (resolution env req w) as [[c d] w1|e1 w1] eqn:Hr.
      2:{ pose proof (stateless_raised _ _ _ _ (resolution_stateless env req) Hr); subst w1.
          rewrite (mileage_post_raises env req rate now w e1 Hm Hr) in Hmil.
          inversion Hmil; reflexivity. }
      pose proof (stateless_returned _ _ _ _ (resolution_stateless env req) Hr); subst w1.
      rewrite (mileage_post env req rate now w c d Hm Hr) in Hmil.
      destruct (negb _ || negb _); [discriminate|].
      destruct (leb _ zero); [discriminate|].
      destruct (_read_trips w) as [trips w1|e1 w1] eqn:Hread; [discriminate|].
      apply read_trips_raised_world in Hread. inversion Hmil; subst. reflexivity.
  - destruct (_read_trips w) as [trips w1|e w1] eqn:Hread.
    + apply read_trips_world in Hread as Hw. subst w1.
      destruct (costs_ledger env req w trips Hread) as (r & w' & trips' & Hc & Hr & Hlen & Hat).
      rewrite Hc. simpl.
      pose proof (ledger_ok_read w trips Hok Hread) as Hall.
      unfold ledger_ok. destruct (trips_file w') as [| | |doc] eqn:Hfile; try exact I.
      assert (doc = trips') as ->.
      { unfold _read_trips in Hr. rewrite Hfile in Hr. inversion Hr. reflexivity. }
      apply Forall_lookup. intros i t' Hi.
      destruct (trips !! i) as [t|] eqn:Hti.
      * rewrite (Hat i t Hti) in Hi. inversion Hi; subst.
        rewrite Forall_lookup in Hall. specialize (Hall i t Hti).
        destruct (bool_decide _); [apply trip_ok_with_costs|]; exact Hall.
      * apply lookup_ge_None in Hti. rewrite <- Hlen in Hti.
        apply lookup_ge_None in Hti. congruence.
    + apply read_trips_raised_world in Hread as Hw. subst w1.
      unfold costs, mbind, M_bind. rewrite Hread. exact Hok.
Qed.

Lemma demo_ledger_3_ok : ledger_ok demo_ledger_3.
Proof.
  unfold ledger_ok, demo_ledger_3. cbn [trips_file].
  constructor; [|constructor; [|constructor]]; unfold trip_ok.
  - split; [reflexivity|]. split; [reflexivity|].
    split; [vm_compute; repeat constructor|].
    split; [vm_compute; constructor|]. split; [left; reflexivity|].
    split; [exists []; vm_compute; reflexivity|].
    intros _. vm_compute. reflexivity.
  - split; [reflexivity|]. split; [reflexivity|].
    split; [vm_compute; repeat constructor|].
    split; [vm_compute; repeat constructor|]. split; [right; reflexivity|].
    split; [exists [("B", "C")]; vm_compute; reflexivity|].
    intros H. discriminate H.
Qed.

Lemma handlers_keep_ledger_ok_witness :
  let creq := req_costs "2025-01-01T00:00:00Z" "40" "T-1" in
  let now := "2025-04-04T00:00:00" in
  (ledger_ok demo_ledger_3
   /\ trips_file demo_ledger_3 = Document [demo_resolved_trip; demo_partial_trip])
  /\ (exists t,
        trips_file (final_world (mileage demo_env req_A_B_C rate_070 now demo_ledger_3))
        = Document [demo_resolved_trip; demo_partial_trip; t]
        /\ distance_legs t = [Leg "A" "B" demo_leg_miles])
  /\ (exists t,
        trips_file (final_world (costs demo_env creq demo_ledger_3))
        = Document [t; demo_partial_trip]
        /\ length (tickets (trip_costs t)) = 1%nat)
  /\ ledger_ok (final_world (mileage demo_env req_A_B_C rate_070 now demo_ledger_3))
  /\ ledger_ok (final_world (costs demo_env creq demo_ledger_3)).
Proof.
  intros creq now.
  split; [split; [exact demo_ledger_3_ok | reflexivity]|].
  split; [eexists; split; vm_compute; reflexivity|].
  split; [eexists; split; vm_compute; reflexivity|].
  split.
  - exact (proj1 (handlers_keep_ledger_ok demo_env req_A_B_C rate_070 now
                    demo_ledger_3 demo_ledger_3_ok)).
  - exact (proj2 (handlers_keep_ledger_ok demo_env creq rate_070 now
                    demo_ledger_3 demo_ledger_3_ok)).
Defined.

(** X13.  When the file is missing, or holds text that is not JSON, an
    accepted submission writes a ledger that holds the new trip alone:
    whatever the unreadable file held is replaced. *)
Theorem unreadable_ledger_is_replaced env req rate now w w' :
  trips_file w = Absent \/ (exists text, trips_file w = Unparseable text) ->
  mileage env req rate now w = Returned (Redirect "index") w' ->
  exists t,
    trips_file w' = Document [t]
    /\ writes w' = writes w ++ [[t]]
    /\ created_at t = now +:+ "Z".
Proof.
  intros Hfile H.
  apply mileage_saved_inv in H as (c & d & trips & _ & _ & _ & _ & _ & Hread & ->).
  rewrite (read_trips_missing_or_unparseable w Hfile) in Hread.
  inversion Hread; subst trips.
  eexists. repeat split.
Qed.

Lemma unreadable_ledger_is_replaced_witness :
  let w := World (Unparseable "{not json") [] [] in
  let req := req_A_B "one_way" in
  let w' := saved w [submitted_trip manual_env req rate_070 demo_now None []]
              "Trip saved." "success" in
  ((trips_file w = Absent \/ (exists text, trips_file w = Unparseable text))
   /\ mileage manual_env req rate_070 demo_now w = Returned (Redirect "index") w')
  /\ exists t,
    trips_file w' = Document [t]
    /\ writes w' = writes w ++ [[t]]
    /\ created_at t = demo_now +:+ "Z".
Proof.
  intros w req w'.
  assert (Hfile : trips_file w = Absent \/ (exists text, trips_file w = Unparseable text))
    by (right; eexists; reflexivity).
  assert (H : mileage manual_env req rate_070 demo_now w = Returned (Redirect "index") w')
    by (vm_compute; reflexivity).
  split; [split; assumption|].
  exact (unreadable_ledger_is_replaced manual_env req rate_070 demo_now w w' Hfile H).
Defined.

(** ** [index]: the listing *)

Lemma ascii_compare_refl a : Ascii.compare a a = Eq.
Proof. unfold Ascii.compare. apply N.compare_refl. Qed.

Lemma string_compare_lt_trans a :
  forall b c,
    String.compare a b = Lt -> String.compare b c = Lt -> String.compare a c = Lt.
Proof.
  induction a as [|x a IH]; intros [|y b] [|z c]; simpl; try congruence.
  destruct (Ascii.compare x y) eqn:Hxy; try discriminate;
    destruct (Ascii.compare y z) eqn:Hyz; try discriminate; intros Hab Hbc.
  - apply Ascii.compare_eq_iff in Hxy. apply Ascii.compare_eq_iff in Hyz. subst.
    rewrite ascii_compare_refl. eauto.
  - apply Ascii.compare_eq_iff in Hxy. subst. rewrite Hyz. reflexivity.
  - apply Ascii.compare_eq_iff in Hyz. subst. rewrite Hxy. reflexivity.
  - unfold Ascii.compare in *.
    apply N.compare_lt_iff in Hxy. apply N.compare_lt_iff in Hyz.
    assert (Hxz : (N_of_ascii x < N_of_ascii z)%N)
      by (eapply N.lt_trans; eassumption).
    apply N.compare_lt_iff in Hxz. rewrite Hxz. reflexivity.
Qed.

Lemma string_compare_refl a : String.compare a a = Eq.
Proof.
  induction a as [|x a IH]; simpl; [reflexivity|].
  rewrite ascii_compare_refl. exact IH.
Qed.

Lemma string_leb_trans a b c :
  String.leb a b = true -> String.leb b c = true -> String.leb a c = true.
Proof.
  unfold String.leb.
  destruct (String.compare a b) eqn:Hab; try discriminate;
    destruct (String.compare b c) eqn:Hbc; try discriminate; intros _ _.
  - apply String.compare_eq_iff in Hab. apply String.compare_eq_iff in Hbc. subst.
    rewrite string_compare_refl. reflexivity.
  - apply String.compare_eq_iff in Hab. subst. rewrite Hbc. reflexivity.
  - apply String.compare_eq_iff in Hbc. subst. rewrite Hab. reflexivity.
  - rewrite (string_compare_lt_trans a b c Hab Hbc). reflexivity.
Qed.

Lemma string_ltb_leb a b : String.ltb a b = true -> String.leb a b = true.
Proof.
  unfold String.ltb, String.leb. destruct (String.compare a b); congruence.
Qed.

Lemma string_not_ltb_leb a b : String.ltb a b = false -> String.leb b a = true.
Proof.
  unfold String.ltb, String.leb. rewrite (String.compare_antisym a b).
  destruct (String.compare b a); simpl; congruence.
Qed.

Lemma string_ltb_neq a b : String.ltb a b = true -> a <> b.
Proof.
  unfold String.ltb. intros H ->.
  rewrite string_compare_refl in H. discriminate.
Qed.

Lemma insert_newest_perm t l : insert_newest t l ≡ₚ t :: l.
Proof.
  induction l as [|u rest IH]; simpl; [reflexivity|].
  destruct (String.ltb _ _); [|reflexivity].
  rewrite IH. apply perm_swap.
Qed.

Lemma insert_newest_sorted t l :
  StronglySorted not_older l -> StronglySorted not_older (insert_newest t l).
Proof.
  induction 1 as [|u rest Hsorted IH Hall]; simpl.
  - repeat constructor.
  - destruct (String.ltb (created_at t) (created_at u)) eqn:Hlt.
    + constructor; [exact IH|].
      rewrite insert_newest_perm. constructor; [|exact Hall].
      apply string_ltb_leb. exact Hlt.
    + apply string_not_ltb_leb in Hlt.
      constructor; [constructor; assumption|].
      constructor; [exact Hlt|].
      eapply Forall_impl; [exact Hall|]. intros x Hx.
      unfold not_older in *. eapply string_leb_trans; eassumption.
Qed.

Lemma insert_newest_filter k t l :
  filter (fun u => created_at u = k) (insert_newest t l)
  = filter (fun u => created_at u = k) (t :: l).
Proof.
  induction l as [|u rest IH]; simpl; [reflexivity|].
  destruct (String.ltb (created_at t) (created_at u)) eqn:Hlt; [|reflexivity].
  apply string_ltb_neq in Hlt.
  rewrite (filter_cons _ u), IH, !(filter_cons _ t), (filter_cons _ u).
  destruct (decide (created_at u = k)), (decide (created_at t = k));
    try reflexivity. congruence.
Qed.

(** X14.  [index] changes nothing and lists every trip of the ledger
    once, newest first: the listing is a rearrangement of the loaded trips,
    no trip comes before one with a greater [created_at] (compared as
    text, code point by code point), and trips with the same [created_at]
    stay in the order of the ledger.  [api_trips] returns the ledger as it
    is stored, unsorted. *)
Theorem index_lists_newest_first w trips :
  _read_trips w = Returned trips w ->
  exists listed,
    index w = Returned (Page "index.html" listed) w
    /\ api_trips w = Returned trips w
    /\ listed ≡ₚ trips
    /\ StronglySorted not_older listed
    /\ forall k,
         filter (fun t => created_at t = k) listed
         = filter (fun t => created_at t = k) trips.
Proof.
  intros Hread. exists (sorted_newest_first trips).
  split; [unfold index, mbind, M_bind; rewrite Hread; reflexivity|].
  split; [exact Hread|].
  unfold sorted_newest_first.
  split; [|split].
  - induction trips as [|t rest IH] in |- *; simpl; [reflexivity|].
    rewrite insert_newest_perm, IH. reflexivity.
  - induction trips as [|t rest IH] in |- *; simpl; [constructor|].
    apply insert_newest_sorted. exact IH.
  - intros k. induction trips as [|t rest IH] in |- *; simpl; [reflexivity|].
    rewrite insert_newest_filter, !(filter_cons _ t), IH. reflexivity.
Qed.

Lemma index_lists_newest_first_witness :
  let trips := [demo_trip; demo_trip_2; demo_trip_dup] in
  (_read_trips demo_ledger_4 = Returned trips demo_ledger_4
   /\ created_at demo_trip = created_at demo_trip_dup
   /\ demo_trip <> demo_trip_dup
   /\ String.ltb (created_at demo_trip) (created_at demo_trip_2) = true)
  /\ index demo_ledger_4
     = Returned (Page "index.html" [demo_trip_2; demo_trip; demo_trip_dup]) demo_ledger_4
  /\ exists listed,
    index demo_ledger_4 = Returned (Page "index.html" listed) demo_ledger_4
    /\ api_trips demo_ledger_4 = Returned trips demo_ledger_4
    /\ listed ≡ₚ trips
    /\ StronglySorted not_older listed
    /\ forall k,
         filter (fun t => created_at t = k) listed
         = filter (fun t => created_at t = k) trips.
Proof.
  intros trips.
  split.
  { split; [reflexivity|]. split; [reflexivity|].
    split; [intros H; vm_compute in H; discriminate H | vm_compute; reflexivity]. }
  split; [vm_compute; reflexivity|].
  exact (index_lists_newest_first demo_ledger_4 trips eq_refl).
Defined.

Lemma sorted_newest_first_latest t trips :
  Forall (fun u => String.ltb (created_at u) (created_at t) = true) trips ->
  sorted_newest_first (trips ++ [t]) = t :: sorted_newest_first trips.
Proof.
  unfold sorted_newest_first. induction 1 as [|u rest Hu _ IH]; simpl.
  - reflexivity.
  - rewrite IH. simpl. rewrite Hu. reflexivity.
Qed.

(** X15.  A trip saved with a timestamp greater than every [created_at] of
    the ledger heads the listing of the next [index], followed by the
    older trips in the order they were listed before. *)
Theorem saved_trip_is_listed_first env req rate now w w' trips :
  _read_trips w = Returned trips w ->
  Forall (fun u => String.ltb (created_at u) (now +:+ "Z") = true) trips ->
  mileage env req rate now w = Returned (Redirect "index") w' ->
  exists t,
    index w' = Returned (Page "index.html" (t :: sorted_newest_first trips)) w'
    /\ created_at t = now +:+ "Z"
    /\ index w = Returned (Page "index.html" (sorted_newest_first trips)) w.
Proof.
  intros Hread Hold H.
  apply mileage_saved_inv in H as (c & d & trips0 & _ & _ & _ & _ & _ & Hread0 & ->).
  rewrite Hread in Hread0. inversion Hread0; subst trips0.
  exists (submitted_trip env req rate now c d).
  split; [|split; [reflexivity|]].
  - unfold index, mbind, M_bind. rewrite read_saved.
    rewrite sorted_newest_first_latest by exact Hold. reflexivity.
  - unfold index, mbind, M_bind. rewrite Hread. reflexivity.
Qed.

Lemma saved_trip_is_listed_first_witness :
  let req := req_A_B "one_way" in
  let now := "2025-06-30T12:00:00" in
  let w' := saved demo_ledger
              ([demo_trip] ++ [submitted_trip manual_env req rate_070 now None []])
              "Trip saved." "success" in
  (_read_trips demo_ledger = Returned [demo_trip] demo_ledger
   /\ Forall (fun u => String.ltb (created_at u) (now +:+ "Z") = true) [demo_trip]
   /\ mileage manual_env req rate_070 now demo_ledger = Returned (Redirect "index") w')
  /\ exists t,
    index w' = Returned (Page "index.html" (t :: sorted_newest_first [demo_trip])) w'
    /\ created_at t = now +:+ "Z"
    /\ index demo_ledger
       = Returned (Page "index.html" (sorted_newest_first [demo_trip])) demo_ledger.
Proof.
  intros req now w'.
  assert (Hold : Forall (fun u => String.ltb (created_at u) (now +:+ "Z") = true)
                   [demo_trip])
    by (repeat constructor).
  assert (H : mileage manual_env req rate_070 now demo_ledger
              = Returned (Redirect "index") w') by (vm_compute; reflexivity).
  split; [repeat split; assumption|].
  exact (saved_trip_is_listed_first manual_env req rate_070 now demo_ledger w'
           [demo_trip] eq_refl Hold H).
Defined.

(** ** Exceptions *)

Lemma raises_requests_only_ret {A} (a : A) : raises_requests_only (mret a).
Proof. intros w e w' H. discriminate. Qed.

Lemma raises_requests_only_raise {A} : raises_requests_only (@raise A RequestException).
Proof. intros w e w' H. inversion H. reflexivity. Qed.

Lemma raises_requests_only_bind {A B} (m : M A) (k : A -> M B) :
  raises_requests_only m -> (forall a, raises_requests_only (k a)) ->
  raises_requests_only (m ≫= k).
Proof.
  intros Hm Hk w e w' H. unfold mbind, M_bind in H.
  destruct (m w) as [a w1|e1 w1] eqn:Hmw.
  - exact (Hk a w1 e w' H).
  - inversion H; subst. exact (Hm w e w' Hmw).
Qed.

Lemma geocode_ors_raises env a : raises_requests_only (geocode_ors env a).
Proof.
  unfold geocode_ors. destruct (negb _); [apply raises_requests_only_ret|].
  destruct (geocode_search env a) as [|[|c cs]];
    auto using raises_requests_only_ret, raises_requests_only_raise.
Qed.

Lemma driving_distance_raises env a b :
  raises_requests_only (driving_distance_miles_ors env a b).
Proof.
  unfold driving_distance_miles_ors.
  destruct (negb _); [apply raises_requests_only_ret|].
  apply raises_requests_only_bind; [apply geocode_ors_raises|]. intros s.
  apply raises_requests_only_bind; [apply geocode_ors_raises|]. intros e.
  destruct (found s), (found e); try apply raises_requests_only_ret.
  destruct (directions env _ _);
    auto using raises_requests_only_ret, raises_requests_only_raise.
Qed.

Lemma legs_loop_raises env pairs total detail :
  raises_requests_only (legs_loop env pairs total detail).
Proof.
  revert total detail.
  induction pairs as [|[a b] rest IH]; intros total detail; simpl.
  - apply raises_requests_only_ret.
  - apply raises_requests_only_bind; [apply driving_distance_raises|].
    intros [d|]; [apply IH | apply raises_requests_only_ret].
Qed.

(** The routing phase raises only behind the gate of line 154. *)
Lemma resolution_raises env req w e w' :
  resolution env req w = Raised e w' ->
  e = RequestException
  /\ ors_enabled env = true
  /\ truthy (submitted_start req) = true
  /\ truthy (submitted_end req) = true.
Proof.
  unfold resolution, route.
  destruct (ors_enabled env); cbn [andb]; [|discriminate].
  destruct (truthy (submitted_start req)); cbn [andb]; [|discriminate].
  destruct (truthy (submitted_end req)); cbn [andb]; [|discriminate].
  match goal with
  | |- context [(2 <=? ?n)%nat] => destruct (2 <=? n)%nat; [|discriminate]
  end.
  intros H. split; [|auto].
  revert H. apply raises_requests_only_bind; [apply legs_loop_raises|].
  intros [[ok total] detail]. apply raises_requests_only_ret.
Qed.

Lemma read_trips_raises w e w' :
  _read_trips w = Raised e w' ->
  w' = w /\ e = UnicodeDecodeError /\ exists bytes, trips_file w = Undecodable bytes.
Proof.
  unfold _read_trips. destruct (trips_file w) eqn:Hf; intros H; inversion H; subst.
  eauto.
Qed.

(** X16.  An exception leaves no trace, and a rejected submission never
    raises.  When [mileage] raises, the world is as it was (nothing
    written, nothing flashed) and the request was a POST with both
    addresses; if what it raises comes from the routing service, the key
    is configured; if it is the [UnicodeDecodeError] of the load, the file
    is not UTF-8 and the submission had passed both checks.  When [costs]
    raises, the world is as it was, and what it raises does not come from
    the routing service, which [costs] never calls; if it is
    [UnicodeDecodeError], the file is not UTF-8.  ([RequestException]
    stands for whatever a request to the routing service, or the reading of
    its reply, raises.) *)
Theorem exceptions_leave_no_trace env req rate now w :
  (forall e w',
      mileage env req rate now w = Raised e w' ->
      w' = w
      /\ method req = "POST"
      /\ truthy (submitted_start req) = true
      /\ truthy (submitted_end req) = true
      /\ (e = RequestException -> ors_enabled env = true)
      /\ (e = UnicodeDecodeError ->
          (exists bytes, trips_file w = Undecodable bytes)
          /\ exists c d,
               resolution env req w = Returned (c, d) w
               /\ leb (final_one_way env req c) zero = false))
  /\ (forall e w',
        costs env req w = Raised e w' ->
        w' = w
        /\ e <> RequestException
        /\ (e = UnicodeDecodeError ->
            exists bytes, trips_file w = Undecodable bytes)).
Proof.
  split.
  - intros e w' H.
    destruct (String.eqb (method req) "POST") eqn:Hm.
    2:{ unfold mileage in H. rewrite Hm in H. discriminate. }
    apply String.eqb_eq in Hm.
    destruct (resolution env req w) as [[c d] w1|e1 w1] eqn:Hr.
    + pose proof (stateless_returned _ _ _ _ (resolution_stateless env req) Hr); subst w1.
      rewrite (mileage_post env req rate now w c d Hm Hr) in H.
      destruct (truthy (submitted_start req)); simpl in H; [|discriminate].
      destruct (truthy (submitted_end req)); simpl in H; [|discriminate].
      destruct (leb _ zero) eqn:Hle; [discriminate|].
      destruct (_read_trips w) as [trips w1|e1 w1] eqn:Hread; [discriminate|].
      inversion H; subst.
      apply read_trips_raises in Hread as (-> & -> & Hfile).
      split; [reflexivity|]. split; [exact Hm|].
      split; [reflexivity|]. split; [reflexivity|].
      split; [discriminate|]. intros _. split; [exact Hfile|]. eauto.
    + pose proof (stateless_raised _ _ _ _ (resolution_stateless env req) Hr); subst w1.
      rewrite (mileage_post_raises env req rate now w e1 Hm Hr) in H.
      inversion H; subst.
      apply resolution_raises in Hr as (-> & Hon & Hs & He).
      split; [reflexivity|]. split; [exact Hm|].
      split; [exact Hs|]. split; [exact He|].
      split; [intros _; exact Hon | discriminate].
  - intros e w' H. unfold costs, mbind, M_bind in H.
    destruct (_read_trips w) as [trips w1|e1 w1] eqn:Hread.
    + exfalso. destruct (String.eqb _ _); [|discriminate].
      destruct (amend_loop _ _ trips) as [trips' [|]]; discriminate.
    + inversion H; subst.
      apply read_trips_raises in Hread as (-> & -> & Hfile).
      split; [reflexivity|]. split; [discriminate|]. intros _. exact Hfile.
Qed.

(** ** A saved trip and its key *)

(** X17.  The [created_at] that [mileage] stores is the key [costs] looks
    for: after an accepted submission made at [now], a POST to [costs]
    with [created_at] equal to [now] followed by [Z] finds a trip, writes
    the ledger and flashes [Costs updated.]; the ledger keeps its
    length. *)
Theorem saved_trip_can_be_amended env req rate now w w' creq :
  mileage env req rate now w = Returned (Redirect "index") w' ->
  method creq = "POST" ->
  form creq !! "created_at" = Some (now +:+ "Z") ->
  exists saved_trips w'' amended,
    trips_file w' = Document saved_trips
    /\ costs env creq w' = Returned (Redirect "costs") w''
    /\ trips_file w'' = Document amended
    /\ length amended = length saved_trips
    /\ flashes w'' = flashes w' ++ [("Costs updated.", "success")].
Proof.
  intros H Hm Hkey.
  apply mileage_saved_inv in H as (c & d & trips & _ & _ & _ & _ & _ & _ & ->).
  set (t := submitted_trip env req rate now c d).
  set (w' := saved w (trips ++ [t]) "Trip saved." "success").
  assert (Hread : _read_trips w' = Returned (trips ++ [t]) w') by reflexivity.
  assert (Hin : (trips ++ [t]) !! length trips = Some t).
  { rewrite lookup_app_r by lia. rewrite Nat.sub_diag. reflexivity. }
  assert (Hsame : same_key t (form creq !! "created_at") = true).
  { rewrite Hkey. simpl. apply String.eqb_refl. }
  destruct (first_match_bound _ _ _ _ Hin Hsame) as (k & Hk & _).
  destruct (costs_outcome env creq w' _ Hread)
    as [(Hget & _) | [(_ & Hnone & _) | (_ & before & t0 & after & Heq & _ & Hc)]].
  - contradiction.
  - rewrite Hk in Hnone. discriminate.
  - eexists _, _, _. split; [reflexivity|]. split; [exact Hc|].
    split; [reflexivity|]. split; [|reflexivity].
    rewrite Heq, !length_app. reflexivity.
Qed.

Lemma saved_trip_can_be_amended_witness :
  let req := req_A_B "one_way" in
  let creq := req_costs "2025-01-01T00:00:00Z" "40" "T-1" in
  let w' := saved empty_world [submitted_trip manual_env req rate_070 demo_now None []]
              "Trip saved." "success" in
  (mileage manual_env req rate_070 demo_now empty_world = Returned (Redirect "index") w'
   /\ method creq = "POST"
   /\ form creq !! "created_at" = Some (demo_now +:+ "Z"))
  /\ exists saved_trips w'' amended,
    trips_file w' = Document saved_trips
    /\ costs manual_env creq w' = Returned (Redirect "costs") w''
    /\ trips_file w'' = Document amended
    /\ length amended = length saved_trips
    /\ flashes w'' = flashes w' ++ [("Costs updated.", "success")].
Proof.
  intros req creq w'.
  assert (H : mileage manual_env req rate_070 demo_now empty_world
              = Returned (Redirect "index") w') by (vm_compute; reflexivity).
  assert (Hkey : form creq !! "created_at" = Some (demo_now +:+ "Z"))
    by (vm_compute; reflexivity).
  split; [repeat split; assumption|].
  exact (saved_trip_can_be_amended manual_env req rate_070 demo_now empty_world w'
           creq H eq_refl Hkey).
Defined.

(** ** Amendments of different trips *)

(** One request to [costs], in full: the answer, the ledger position by
    position, and whether the file was written. *)
Lemma costs_step env req w trips :
  _read_trips w = Returned trips w ->
  exists w' trips',
    costs env req w
    = Returned (if String.eqb (method req) "POST"
                then Redirect "costs" else Render "costs.html") w'
    /\ _read_trips w' = Returned trips' w'
    /\ created_at <$> trips' = created_at <$> trips
    /\ length trips' = length trips
    /\ (forall i t,
          trips !! i = Some t ->
          trips' !! i
          = Some (if bool_decide (method req = "POST"
                                  /\ first_match (form req !! "created_at") trips = Some i)
                  then with_costs t (amended_costs env req (tickets (trip_costs t)))
                  else t))
    /\ ((method req = "POST"
         /\ is_Some (first_match (form req !! "created_at") trips)
         /\ trips_file w' = Document trips')
        \/ (~ (method req = "POST"
               /\ is_Some (first_match (form req !! "created_at") trips))
            /\ trips_file w' = trips_file w
            /\ trips' = trips)).
Proof.
  intros Hread.
  destruct (costs_ledger env req w trips Hread) as (r & w' & trips' & Hc & Hr & Hlen & Hat).
  exists w', trips'.
  assert (Hkeys : created_at <$> trips' = created_at <$> trips).
  { apply list_eq. intros i. rewrite !list_lookup_fmap.
    destruct (trips !! i) as [t|] eqn:Hi.
    - rewrite (Hat i t Hi). simpl. destruct (bool_decide _); reflexivity.
    - apply lookup_ge_None in Hi. rewrite <- Hlen in Hi.
      apply lookup_ge_None in Hi. rewrite Hi. reflexivity. }
  destruct (costs_outcome env req w trips Hread)
    as [(Hm & Hc') | [(Hm & Hnone & Hc') | (Hm & before & t0 & after & Heq & Hfirst & Hc')]];
    rewrite Hc' in Hc; inversion Hc; subst r w'; clear Hc.
  - apply String.eqb_neq in Hm as Hm'. rewrite Hm'.
    repeat (split; [assumption|]). right.
    split; [tauto|]. split; [reflexivity|].
    rewrite Hread in Hr. inversion Hr. reflexivity.
  - rewrite (proj2 (String.eqb_eq _ _) Hm).
    repeat (split; [assumption|]). right.
    split; [rewrite Hnone; intros [_ [? ?]]; discriminate|]. split; [reflexivity|].
    rewrite (read_flashed w trips _ _ Hread) in Hr. inversion Hr. reflexivity.
  - rewrite (proj2 (String.eqb_eq _ _) Hm).
    repeat (split; [assumption|]). left.
    split; [exact Hm|]. split; [rewrite Hfirst; eexists; reflexivity|].
    rewrite read_saved in Hr. inversion Hr. reflexivity.
Qed.

Lemma same_key_inv t key : same_key t key = true -> key = Some (created_at t).
Proof.
  unfold same_key. destruct key as [k|]; [|discriminate].
  intros H. apply String.eqb_eq in H. congruence.
Qed.

(** X18.  Amendments addressed to different trips commute: two requests to
    [costs] whose [created_at] fields differ leave the same file, and get
    the same answers, in either order. *)
Theorem amendments_of_different_trips_commute env req1 req2 w trips :
  _read_trips w = Returned trips w ->
  form req1 !! "created_at" <> form req2 !! "created_at" ->
  exists r1 r2 w1 w12 w2 w21,
    costs env req1 w = Returned r1 w1
    /\ costs env req2 w1 = Returned r2 w12
    /\ costs env req2 w = Returned r2 w2
    /\ costs env req1 w2 = Returned r1 w21
    /\ trips_file w12 = trips_file w21.
Proof.
  intros Hread Hkeys.
  destruct (costs_step env req1 w trips Hread)
    as (w1 & trips1 & Hc1 & Hr1 & Hk1 & Hl1 & Hat1 & Hf1).
  destruct (costs_step env req2 w1 trips1 Hr1)
    as (w12 & trips12 & Hc12 & Hr12 & Hk12 & Hl12 & Hat12 & Hf12).
  destruct (costs_step env req2 w trips Hread)
    as (w2 & trips2 & Hc2 & Hr2 & Hk2 & Hl2 & Hat2 & Hf2).
  destruct (costs_step env req1 w2 trips2 Hr2)
    as (w21 & trips21 & Hc21 & Hr21 & Hk21 & Hl21 & Hat21 & Hf21).
  rewrite (first_match_same_keys _ trips1 trips Hk1) in Hat12, Hf12.
  rewrite (first_match_same_keys _ trips2 trips Hk2) in Hat21, Hf21.
  eexists _, _, w1, w12, w2, w21.
  repeat (split; [eassumption|]).
  assert (Heq : trips12 = trips21).
  { apply list_eq. intros i.
    destruct (trips !! i) as [t|] eqn:Hi.
    - pose proof (Hat1 i t Hi) as H1. pose proof (Hat2 i t Hi) as H2.
      rewrite (Hat12 i _ H1), (Hat21 i _ H2).
      destruct (bool_decide (method req1 = "POST" /\ _)) eqn:Hb1;
        destruct (bool_decide (method req2 = "POST" /\ _)) eqn:Hb2;
        try reflexivity.
      exfalso.
      apply bool_decide_eq_true in Hb1 as [_ Hb1].
      apply bool_decide_eq_true in Hb2 as [_ Hb2].
      destruct (first_match_key _ _ _ Hb1) as (t1 & Ht1 & Hs1).
      destruct (first_match_key _ _ _ Hb2) as (t2 & Ht2 & Hs2).
      rewrite Hi in Ht1, Ht2. inversion Ht1; inversion Ht2; subst t1 t2.
      apply same_key_inv in Hs1, Hs2. congruence.
    - apply lookup_ge_None in Hi.
      assert (H12 : trips12 !! i = None) by (apply lookup_ge_None; lia).
      assert (H21 : trips21 !! i = None) by (apply lookup_ge_None; lia).
      congruence. }
  destruct Hf1 as [(Hp1 & Hm1 & Hfile1) | (Hn1 & Hfile1 & E1)];
    destruct Hf12 as [(Hp2 & Hm2 & Hfile12) | (Hn2 & Hfile12 & E12)];
    destruct Hf2 as [(Hp2' & Hm2' & Hfile2) | (Hn2' & Hfile2 & E2)];
    destruct Hf21 as [(Hp1' & Hm1' & Hfile21) | (Hn1' & Hfile21 & E21)];
    first [congruence | exfalso; tauto].
Qed.

Lemma amendments_of_different_trips_commute_witness :
  let req1 := req_costs "2025-01-01T00:00:00Z" "40" "T-1" in
  let req2 := req_amounts "2025-02-02T00:00:00Z" "15" in
  (_read_trips demo_ledger_2 = Returned [demo_trip; demo_trip_2] demo_ledger_2
   /\ form req1 !! "created_at" <> form req2 !! "created_at")
  /\ exists r1 r2 w1 w12 w2 w21,
    costs manual_env req1 demo_ledger_2 = Returned r1 w1
    /\ costs manual_env req2 w1 = Returned r2 w12
    /\ costs manual_env req2 demo_ledger_2 = Returned r2 w2
    /\ costs manual_env req1 w2 = Returned r1 w21
    /\ trips_file w12 = trips_file w21.
Proof.
  intros req1 req2.
  assert (Hne : form req1 !! "created_at" <> form req2 !! "created_at").
  { intros H. vm_compute in H. discriminate. }
  split; [split; [reflexivity | exact Hne]|].
  exact (amendments_of_different_trips_commute manual_env req1 req2 demo_ledger_2
           [demo_trip; demo_trip_2] eq_refl Hne).
Defined.

(** ** The stops and the amounts as the forms give them *)

(** X19.  The stops [mileage] stores are the filled slots among the first
    five: a stop is stored for a slot exactly when its address or its
    datetime field holds something other than white space, and it is stored
    with both texts stripped. *)
Theorem stops_are_the_filled_slots f s :
  s ∈ read_stops f
  <-> exists i,
        (1 <= i <= 5)%nat
        /\ s = Stop (strip (form_get f (stop_key i "address") ""))
                    (strip (form_get f (stop_key i "datetime") ""))
        /\ (blank (form_get f (stop_key i "address") "") = false
            \/ blank (form_get f (stop_key i "datetime") "") = false).
Proof.
  assert (Hblank : forall t, truthy (strip t) = true <-> blank t = false).
  { intros t. pose proof (strip_empty_iff t) as Hs.
    pose proof (truthy_false_iff (strip t)) as Ht.
    destruct (truthy (strip t)), (blank t); split; intros H;
      try reflexivity; try discriminate.
    - exfalso. assert (strip t = "") as E by (apply Hs; reflexivity).
      apply Ht in E. discriminate.
    - exfalso. assert (strip t = "") as E by (apply Ht; reflexivity).
      apply Hs in E. discriminate. }
  unfold read_stops. rewrite list_elem_of_In, in_flat_map. split.
  - intros (i & Hi & Hs). apply in_seq in Hi. exists i. split; [lia|].
    unfold stop_slot in Hs.
    destruct (truthy _ || truthy _) eqn:Hany; [|contradiction].
    destruct Hs as [<- | []]. split; [reflexivity|].
    apply orb_true_iff in Hany as [H | H]; [left | right]; apply Hblank; exact H.
  - intros (i & Hi & -> & Hany). exists i. split; [apply in_seq; lia|].
    unfold stop_slot.
    assert (Ht : truthy (strip (form_get f (stop_key i "address") ""))
                 || truthy (strip (form_get f (stop_key i "datetime") "")) = true).
    { apply orb_true_iff. destruct Hany as [H | H]; [left | right];
        apply Hblank; exact H. }
    rewrite Ht. left. reflexivity.
Qed.

(** X20.  An amendment replaces the three amounts together: an amount
    whose field is missing from the form, or holds a text [float()] does
    not read, is stored as [0.0], whatever the trip held before. *)
Theorem omitted_amounts_are_reset env req w trips i t :
  method req = "POST" ->
  _read_trips w = Returned trips w ->
  first_match (form req !! "created_at") trips = Some i ->
  trips !! i = Some t ->
  exists w' trips' t',
    costs env req w = Returned (Redirect "costs") w'
    /\ _read_trips w' = Returned trips' w'
    /\ trips' !! i = Some t'
    /\ (forall field amount,
          (field, amount) ∈ [("gas", gas (trip_costs t'));
                             ("food", food (trip_costs t'));
                             ("tolls", tolls (trip_costs t'))] ->
          match form req !! field with
          | None => amount = zero
          | Some text =>
              match float_of_str env text with
              | None => amount = zero
              | Some x => amount = x
              end
          end).
Proof.
  intros Hm Hread Hfirst Hi.
  destruct (costs_step env req w trips Hread)
    as (w' & trips' & Hc & Hr & _ & _ & Hat & _).
  rewrite (proj2 (String.eqb_eq _ _) Hm) in Hc.
  exists w', trips'. eexists. split; [exact Hc|]. split; [exact Hr|].
  split.
  { rewrite (Hat i t Hi). rewrite bool_decide_eq_true_2 by auto. reflexivity. }
  intros field amount Hin. simpl in Hin.
  apply elem_of_cons in Hin as [Hin | Hin];
    [|apply elem_of_cons in Hin as [Hin | Hin];
      [|apply list_elem_of_singleton in Hin]];
    inversion Hin; subst; unfold amended_costs, safe_float; simpl;
    repeat case_match; congruence.
Qed.

Lemma omitted_amounts_are_reset_witness :
  let req := req_amounts "2025-01-01T00:00:00Z" "40" in
  let w := World (Document [with_costs demo_trip
                              (Costs (of_Z 1) (of_Z 2) (of_Z 3) [])]) [] [] in
  let t := with_costs demo_trip (Costs (of_Z 1) (of_Z 2) (of_Z 3) []) in
  (method req = "POST"
   /\ _read_trips w = Returned [t] w
   /\ first_match (form req !! "created_at") [t] = Some 0%nat
   /\ [t] !! 0%nat = Some t)
  /\ exists w' trips' t',
    costs manual_env req w = Returned (Redirect "costs") w'
    /\ _read_trips w' = Returned trips' w'
    /\ trips' !! 0%nat = Some t'
    /\ (forall field amount,
          (field, amount) ∈ [("gas", gas (trip_costs t'));
                             ("food", food (trip_costs t'));
                             ("tolls", tolls (trip_costs t'))] ->
          match form req !! field with
          | None => amount = zero
          | Some text =>
              match float_of_str manual_env text with
              | None => amount = zero
              | Some x => amount = x
              end
          end).
Proof.
  intros req w t.
  assert (Hfirst : first_match (form req !! "created_at") [t] = Some 0%nat)
    by (vm_compute; reflexivity).
  split; [repeat split; (reflexivity || exact Hfirst)|].
  exact (omitted_amounts_are_reset manual_env req w [t] 0%nat t
           eq_refl eq_refl Hfirst eq_refl).
Defined.
